(** * DNS resolver: resolution-and-cache engine

    A shallow embedding of the resolver's [main] package (normalizeDomain,
    cacheResult, getCachedResult, resolveDNS, reverseDNS, resolveBatch,
    printRecords, main) and the proofs of its specification.

    The Go functions touch the process state: the cache map and its mutex,
    the clock, the log, standard output, the platform resolver.  They are
    written here as programs over a small set of primitive effects.  One
    handler gives every primitive its meaning on an explicit [World]; a
    sequential interpreter runs a program as a single goroutine, and a
    scheduler interleaves the goroutines of the batch mode primitive by
    primitive.  The [idna] and [net] libraries, the resolver, the file system
    and the order in which the runtime walks a map are a parameter, the
    [Platform]. *)

From Stdlib Require Import ZArith List Ascii String Strings.Byte DecimalString.
From stdpp Require Import base option gmap strings list fin_maps.

Local Open Scope string_scope.
Local Open Scope Z_scope.

(** ** Data model *)

(** Go's [error] interface: only [err == nil] and the [%v] rendering of the
    error are used, so an error is its message. *)
Definition error : Type := string.

(** [time.Time] and [time.Duration]: a reading of the process clock and a
    span, both counted in nanoseconds as [time.Duration] is.  Readings made
    by [time.Now()] in one process compare by their monotonic part, so one
    integer is enough; the ends of the int64 range are out of reach of a
    clock and are not modelled. *)
Definition Time : Type := Z.
Definition Duration : Type := Z.

Module time.
Definition Nanosecond : Duration := 1.
Definition Microsecond : Duration := 1000 * Nanosecond.
Definition Millisecond : Duration := 1000 * Microsecond.
Definition Second : Duration := 1000 * Millisecond.
Definition Minute : Duration := 60 * Second.

(** [t.Add(d)] *)
Definition Add (t : Time) (d : Duration) : Time := t + d.
(** [t.After(u)]: whether [t] is strictly later than [u]. *)
Definition After (t u : Time) : bool := u <? t.
End time.

(** [net.IP] is a byte slice of length 4 or 16. *)
Definition IP : Type := list byte.

Module net.
Definition IPv4len : nat := 4.
Definition IPv6len : nat := 16.

Definition isZeros (p : list byte) : bool :=
  forallb (fun b => Byte.eqb b x00) p.

(** [ip.To4()]: the 4-byte form of an IPv4 address (also of one held in
    the 16-byte IPv4-in-IPv6 form), [None] for Go's nil. *)
Definition To4 (ip : IP) : option IP :=
  if Nat.eqb (length ip) IPv4len then Some ip
  else if Nat.eqb (length ip) IPv6len
          && isZeros (firstn 10 ip)
          && Byte.eqb (nth 10 ip x00) xff
          && Byte.eqb (nth 11 ip x00) xff
       then Some (firstn 4 (skipn 12 ip))
       else None.

(** [*net.MX] and [*net.NS] *)
Record MX := { MX_Host : string; MX_Pref : N }.
Record NS := { NS_Host : string }.
End net.

(** The result mapping [map[string][]string]; Go's nil map reads as the
    empty one.  The map that resolveDNS returns is the very object it has
    stored in the cache; nothing writes to a map once it is stored (the
    callers print it), so the map is modelled by its value. *)
Abbreviation RecordSet := (gmap string (list string)).

(** The anonymous struct stored in [dnsCache]. *)
Record CacheEntry := {
  records : RecordSet;
  expiry : Time
}.

(** The operations of the platform resolver, and one observed invocation:
    which operation, on which name, and the error it returned. *)
Inductive LookupOp :=
  OpLookupIP | OpLookupCNAME | OpLookupMX | OpLookupTXT | OpLookupNS | OpLookupAddr.

Record Call := {
  call_op : LookupOp;
  call_arg : string;
  call_err : option error
}.

(** The process state the program reads and writes. *)
Record World := {
  dnsCache : gmap string CacheEntry;   (* var dnsCache *)
  cacheMutex : bool;                   (* var cacheMutex: true when locked *)
  clock : Time;                        (* what time.Now() reads; see [handle] *)
  stdout : list string;                (* writes of fmt.Print*, oldest first *)
  logOutput : option string;           (* log.SetOutput: the log file, None = stderr *)
  logged : list string;                (* messages handed to the logger *)
  calls : list Call;                   (* invocations of the platform resolver *)
  wg : Z                               (* the counter of resolveBatch's WaitGroup *)
}.

(** Everything the program takes from outside: the [idna] and [net]
    libraries, the platform resolver and the file system.  A lookup is made
    at a clock reading, answers with Go's value-and-error pair and takes
    some time. *)
Record Platform := {
  idna_ToASCII : string -> string * option error;
  IP_String : IP -> string;
  net_LookupIP : Time -> string -> (list IP * option error) * Duration;
  net_LookupCNAME : Time -> string -> (string * option error) * Duration;
  net_LookupMX : Time -> string -> (list net.MX * option error) * Duration;
  net_LookupTXT : Time -> string -> (list string * option error) * Duration;
  net_LookupNS : Time -> string -> (list net.NS * option error) * Duration;
  net_LookupAddr : Time -> string -> (list string * option error) * Duration;
  (* os.OpenFile(name, O_APPEND|O_CREATE|O_WRONLY, 0644): the error *)
  os_OpenFile : string -> option error;
  (* os.Open followed by a bufio.Scanner: the lines scanned, and the error *)
  os_Open : string -> list string * option error;
  (* the order in which the runtime walks a map in a [range] loop: Go leaves
     it open, and it may differ from one loop to the next; whatever the
     state of the process, it goes through the entries of the map, each
     once *)
  map_range : World -> RecordSet -> list (string * list string);
  map_range_entries : forall (w : World) (m : RecordSet), map_range w m ≡ₚ map_to_list m
}.

(** ** Effects and programs *)

Inductive Eff : Type -> Type :=
| ENow : Eff Time
| ELock : Eff unit
| EUnlock : Eff unit
| ECacheLoad (domain : string) : Eff (option CacheEntry)
| ECacheStore (domain : string) (e : CacheEntry) : Eff unit
| EPrint (s : string) : Eff unit
| ELogPrint (msg : string) : Eff unit
| ELogFatal (msg : string) : Eff Empty_set
| ELogSetOutput (file : string) : Eff unit
| ELookupIP (name : string) : Eff (list IP * option error)
| ELookupCNAME (name : string) : Eff (string * option error)
| ELookupMX (name : string) : Eff (list net.MX * option error)
| ELookupTXT (name : string) : Eff (list string * option error)
| ELookupNS (name : string) : Eff (list net.NS * option error)
| ELookupAddr (addr : string) : Eff (list string * option error)
| EOpenFile (name : string) : Eff (option error)
| EOpen (path : string) : Eff (list string * option error)
| EWgAdd (delta : Z) : Eff unit
| EWgDone : Eff unit
| ERange (m : RecordSet) : Eff (list (string * list string)).

(** A program is a finite tree of primitive effects ending in a value. *)
Inductive Prog (A : Type) : Type :=
| Ret (a : A)
| Vis {X : Type} (e : Eff X) (k : X -> Prog A).
Arguments Ret {A} a.
Arguments Vis {A X} e k.

Fixpoint bind {A B : Type} (m : Prog A) (f : A -> Prog B) : Prog B :=
  match m with
  | Ret a => f a
  | Vis e k => Vis e (fun x => bind (k x) f)
  end.

#[global] Instance Prog_ret : MRet Prog := @Ret.
#[global] Instance Prog_bind : MBind Prog := fun A B f m => bind m f.

Definition perform {X : Type} (e : Eff X) : Prog X := Vis e Ret.

(** [log.Fatalf] never returns, so it fits any result type. *)
Definition fatal {A : Type} (msg : string) : Prog A :=
  Vis (ELogFatal msg) (fun x : Empty_set => match x with end).

(** What one primitive does: it completes with a value, ends the process
    with an exit code, or cannot proceed in this state. *)
Inductive Step (X : Type) : Type :=
| Done (x : X) (w : World)
| Halt (code : Z) (w : World)
| Wait.
Arguments Done {X} x w.
Arguments Halt {X} code w.
Arguments Wait {X}.

Definition set_cache (f : gmap string CacheEntry -> gmap string CacheEntry) (w : World) : World :=
  {| dnsCache := f (dnsCache w); cacheMutex := cacheMutex w; clock := clock w;
     stdout := stdout w; logOutput := logOutput w; logged := logged w; calls := calls w; wg := wg w |}.
Definition set_mutex (b : bool) (w : World) : World :=
  {| dnsCache := dnsCache w; cacheMutex := b; clock := clock w;
     stdout := stdout w; logOutput := logOutput w; logged := logged w; calls := calls w; wg := wg w |}.
Definition add_stdout (s : string) (w : World) : World :=
  {| dnsCache := dnsCache w; cacheMutex := cacheMutex w; clock := clock w;
     stdout := stdout w ++ [s]; logOutput := logOutput w; logged := logged w; calls := calls w; wg := wg w |}.
Definition add_logged (s : string) (w : World) : World :=
  {| dnsCache := dnsCache w; cacheMutex := cacheMutex w; clock := clock w;
     stdout := stdout w; logOutput := logOutput w; logged := logged w ++ [s]; calls := calls w; wg := wg w |}.
Definition set_logOutput (f : string) (w : World) : World :=
  {| dnsCache := dnsCache w; cacheMutex := cacheMutex w; clock := clock w;
     stdout := stdout w; logOutput := Some f; logged := logged w; calls := calls w; wg := wg w |}.
Definition set_wg (n : Z) (w : World) : World :=
  {| dnsCache := dnsCache w; cacheMutex := cacheMutex w; clock := clock w;
     stdout := stdout w; logOutput := logOutput w; logged := logged w; calls := calls w; wg := n |}.
(** A resolver call is recorded and the clock moves by the time it took. *)
Definition add_call (c : Call) (d : Duration) (w : World) : World :=
  {| dnsCache := dnsCache w; cacheMutex := cacheMutex w; clock := time.Add (clock w) d;
     stdout := stdout w; logOutput := logOutput w; logged := logged w; calls := calls w ++ [c]; wg := wg w |}.

Definition lookup_step {V : Type} (op : LookupOp) (name : string)
    (r : (V * option error) * Duration) (w : World) : Step (V * option error) :=
  Done r.1 (add_call {| call_op := op; call_arg := name; call_err := r.1.2 |} r.2 w).

(** The result of running a goroutine: it returns, the process exits, or
    it is still waiting (for the mutex, or for the WaitGroup). *)
Inductive Outcome (A : Type) : Type :=
| Returned (a : A) (w : World)
| Exited (code : Z) (w : World)
| Blocked (w : World).
Arguments Returned {A} a w.
Arguments Exited {A} code w.
Arguments Blocked {A} w.

(** Sequencing at the level of the process. *)
Definition and_then {A B : Type} (o : Outcome A) (f : A -> World -> Outcome B) : Outcome B :=
  match o with
  | Returned a w => f a w
  | Exited code w => Exited code w
  | Blocked w => Blocked w
  end.

Section WithPlatform.
Variable P : Platform.

(** Within a run the clock moves by the time the lookups take and by
    nothing else.  Properties that span several calls let time pass
    between them explicitly ([advance_clock], [no_put_since]). *)
Definition handle {X : Type} (e : Eff X) (w : World) : Step X :=
  match e in Eff X return Step X with
  | ENow => Done (clock w) w
  | ELock => if cacheMutex w then Wait else Done tt (set_mutex true w)
  | EUnlock => Done tt (set_mutex false w)
  | ECacheLoad domain => Done (dnsCache w !! domain) w
  | ECacheStore domain e => Done tt (set_cache (insert domain e) w)
  | EPrint s => Done tt (add_stdout s w)
  | ELogPrint msg => Done tt (add_logged msg w)
  | ELogFatal msg => Halt 1 (add_logged msg w)
  | ELogSetOutput file => Done tt (set_logOutput file w)
  | ELookupIP name => lookup_step OpLookupIP name (net_LookupIP P (clock w) name) w
  | ELookupCNAME name => lookup_step OpLookupCNAME name (net_LookupCNAME P (clock w) name) w
  | ELookupMX name => lookup_step OpLookupMX name (net_LookupMX P (clock w) name) w
  | ELookupTXT name => lookup_step OpLookupTXT name (net_LookupTXT P (clock w) name) w
  | ELookupNS name => lookup_step OpLookupNS name (net_LookupNS P (clock w) name) w
  | ELookupAddr addr => lookup_step OpLookupAddr addr (net_LookupAddr P (clock w) addr) w
  | EOpenFile name => Done (os_OpenFile P name) w
  | EOpen path => Done (os_Open P path) w
  | EWgAdd delta => Done tt (set_wg (wg w + delta) w)
  (* a counter driven below zero is a Go panic: exit status 2 *)
  | EWgDone => if wg w <=? 0 then Halt 2 w else Done tt (set_wg (wg w - 1) w)
  | ERange m => Done (map_range P w m) w
  end.

Fixpoint run {A : Type} (m : Prog A) (w : World) : Outcome A :=
  match m with
  | Ret a => Returned a w
  | Vis e k =>
      match handle e w with
      | Done x w' => run (k x) w'
      | Halt code w' => Exited code w'
      | Wait => Blocked w
      end
  end.

End WithPlatform.

(** ** Library helpers *)

(** The line feed of Go's ["\n"]. *)
Definition nl : string := String (ascii_of_nat 10) EmptyString.

Module strings.
(** [strings.HasPrefix(s, prefix)] *)
Fixpoint HasPrefix (s prefix : string) : bool :=
  match prefix, s with
  | EmptyString, _ => true
  | String _ _, EmptyString => false
  | String c prefix', String d s' => Ascii.eqb c d && HasPrefix s' prefix'
  end.

(** [strings.Contains(s, substr)] *)
Fixpoint Contains (s substr : string) : bool :=
  HasPrefix s substr ||
  match s with
  | EmptyString => false
  | String _ s' => Contains s' substr
  end.
End strings.

Module fmt.
(** The [%d] verb on an unsigned integer. *)
Definition verb_d (n : N) : string := NilZero.string_of_uint (N.to_uint n).

(** [fmt.Printf] with the format already expanded, and [fmt.Println]. *)
Definition Printf (s : string) : Prog unit := perform (EPrint s).
Definition Println (s : string) : Prog unit := perform (EPrint (s +:+ nl)).
End fmt.

Module log.
(** [log.Printf] with the format already expanded; the time stamp the
    logger puts in front of a message is not part of the model. *)
Definition Printf (s : string) : Prog unit := perform (ELogPrint s).
End log.

(** [for _, x := range l { body }] *)
Fixpoint forEach {A : Type} (l : list A) (body : A -> Prog unit) : Prog unit :=
  match l with
  | [] => mret tt
  | x :: l' => body x;; forEach l' body
  end.

(** [records[key] = append(records[key], v)]: a missing key reads as the
    nil slice. *)
Definition append_at (key v : string) (records : RecordSet) : RecordSet :=
  <[key := (default [] (records !! key) ++ [v])%list]> records.

(** ** The program *)

Section Program.
Variable P : Platform.

Definition initLogger : Prog unit :=
  err ← perform (EOpenFile "dns_resolver.log");
  match err with
  | Some err => fatal ("Error opening log file: " +:+ err)
  | None => perform (ELogSetOutput "dns_resolver.log")
  end.

(** normalizeDomain handles internationalized domain names (IDNs) *)
Definition normalizeDomain (domain : string) : Prog string :=
  let '(normalized, err) := idna_ToASCII P domain in
  match err with
  | Some err =>
      log.Printf ("Error normalizing domain: " +:+ err +:+ nl);;
      mret domain
  | None => mret normalized
  end.

(** cacheResult caches DNS records for a domain.  The deferred unlock runs
    when the body is over. *)
Definition cacheResult (domain : string) (records : RecordSet) : Prog unit :=
  perform ELock;;
  now ← perform ENow;
  perform (ECacheStore domain
             {| records := records; expiry := time.Add now (10 * time.Minute) |});;
  perform EUnlock.

(** getCachedResult retrieves cached DNS records.  [time.Now()] is read
    only when the entry exists ([||] short-circuits). *)
Definition getCachedResult (domain : string) : Prog (RecordSet * bool) :=
  perform ELock;;
  entry ← perform (ECacheLoad domain);
  result ← match entry with
           | None => mret (∅, false)
           | Some entry =>
               now ← perform ENow;
               if time.After now (expiry entry)
               then mret (∅, false)
               else mret (records entry, true)
           end;
  perform EUnlock;;
  mret result.

(** The bodies of the three [range] loops of resolveDNS. *)
Definition add_ip (records : RecordSet) (ip : IP) : RecordSet :=
  match net.To4 ip with
  | Some _ => append_at "A" (IP_String P ip) records
  | None => append_at "AAAA" (IP_String P ip) records
  end.

Definition add_mx (records : RecordSet) (mx : net.MX) : RecordSet :=
  append_at "MX"
    (net.MX_Host mx +:+ " (Priority: " +:+ fmt.verb_d (net.MX_Pref mx) +:+ ")")
    records.

Definition add_ns (records : RecordSet) (ns : net.NS) : RecordSet :=
  append_at "NS" (net.NS_Host ns) records.

(** resolveDNS resolves DNS for a single domain *)
Definition resolveDNS (domain : string) : Prog RecordSet :=
  domain ← normalizeDomain domain;
  '(cached, found) ← getCachedResult domain;
  if found : bool then
    fmt.Println "Cache hit!";;
    mret cached
  else
    let records : RecordSet := ∅ in
    (* A and AAAA Records *)
    '(ips, err) ← perform (ELookupIP domain);
    records ← match err with
              | None => mret (fold_left add_ip ips records)
              | Some err =>
                  log.Printf ("Error looking up IP: " +:+ err +:+ nl);;
                  mret records
              end;
    (* CNAME Record *)
    '(cname, err) ← perform (ELookupCNAME domain);
    records ← match err with
              | None => mret (<["CNAME" := [cname]]> records)
              | Some err =>
                  log.Printf ("Error looking up CNAME: " +:+ err +:+ nl);;
                  mret records
              end;
    (* MX Records *)
    '(mxRecords, err) ← perform (ELookupMX domain);
    records ← match err with
              | None => mret (fold_left add_mx mxRecords records)
              | Some err =>
                  log.Printf ("Error looking up MX: " +:+ err +:+ nl);;
                  mret records
              end;
    (* TXT Records *)
    '(txtRecords, err) ← perform (ELookupTXT domain);
    records ← match err with
              | None => mret (<["TXT" := txtRecords]> records)
              | Some err =>
                  log.Printf ("Error looking up TXT: " +:+ err +:+ nl);;
                  mret records
              end;
    (* NS Records *)
    '(nsRecords, err) ← perform (ELookupNS domain);
    records ← match err with
              | None => mret (fold_left add_ns nsRecords records)
              | Some err =>
                  log.Printf ("Error looking up NS: " +:+ err +:+ nl);;
                  mret records
              end;
    cacheResult domain records;;
    mret records.

(** reverseDNS performs reverse DNS lookup for an IP *)
Definition reverseDNS (ip : string) : Prog unit :=
  '(hosts, err) ← perform (ELookupAddr ip);
  match err with
  | Some err => log.Printf ("Error during reverse DNS lookup: " +:+ err +:+ nl)
  | None =>
      fmt.Println "Reverse DNS:";;
      forEach hosts (fun host => fmt.Println (" - " +:+ host))
  end.

(** printRecords formats and prints DNS records.  The [range] over the map
    goes through the entries in the order the runtime chooses at that
    moment. *)
Definition printRecords (domain : string) (records : RecordSet) : Prog unit :=
  fmt.Printf (nl +:+ "DNS Records for " +:+ domain +:+ ":" +:+ nl);;
  entries ← perform (ERange records);
  forEach entries (fun '(recordType, values) =>
    fmt.Printf (recordType +:+ " Records:" +:+ nl);;
    forEach values (fun value => fmt.Println (" - " +:+ value))).

End Program.

(** ** Goroutines, the batch mode and main *)

Section Process.
Variable P : Platform.

(** One scheduling step of a goroutine: its next primitive runs; a
    goroutine that has finished, or that waits for the mutex, stays as it
    is. *)
Definition step_thread (t : Prog unit) (w : World) : Step (Prog unit) :=
  match t with
  | Ret _ => Done t w
  | Vis e k =>
      match handle P e w with
      | Done x w' => Done (k x) w'
      | Halt code w' => Halt code w'
      | Wait => Done t w
      end
  end.

(** A schedule names, step by step, the goroutine that runs next. *)
Fixpoint interleave (sched : list nat) (pool : list (Prog unit)) (w : World)
    : Outcome (list (Prog unit)) :=
  match sched with
  | [] => Returned pool w
  | i :: sched' =>
      match pool !! i with
      | None => interleave sched' pool w
      | Some t =>
          match step_thread t w with
          | Done t' w' => interleave sched' (<[i := t']> pool) w'
          | Halt code w' => Exited code w'
          | Wait => interleave sched' pool w
          end
      end
  end.

(** The goroutine launched for every line of the batch file; the deferred
    [wg.Done()] runs last. *)
Definition worker (domain : string) : Prog unit :=
  fmt.Printf (nl +:+ "Resolving: " +:+ domain +:+ nl);;
  records ← resolveDNS P domain;
  printRecords domain records;;
  perform EWgDone.

(** The part of resolveBatch that the calling goroutine runs before it
    waits: open the file, and for every scanned line [wg.Add(1)] and the
    launch of a worker.  It returns the domains whose workers were
    launched. *)
Definition resolveBatch_launch (filePath : string) : Prog (list string) :=
  '(file, err) ← perform (EOpen filePath);
  match err with
  | Some err => fatal ("Error reading file: " +:+ err +:+ nl)
  | None =>
      forEach file (fun _ => perform (EWgAdd 1));;
      mret file
  end.

(** resolveBatch reads domains from a file and resolves them.  The workers
    run interleaved as [sched] says; [wg.Wait()] returns once the counter
    is back at zero, and the caller is still waiting if the schedule ends
    before that.  (The launching loop touches nothing the workers read, so
    running it to its end before the first worker step loses no
    behaviour.) *)
Definition resolveBatch (sched : list nat) (filePath : string) (w : World) : Outcome unit :=
  and_then (run P (resolveBatch_launch filePath) w) (fun domains w =>
  and_then (interleave sched (map worker domains) w) (fun _ w =>
  if wg w =? 0 then Returned tt w else Blocked w)).

Definition usage : string :=
  "Usage: go run main.go <domain|ip> [--reverse|--file <path>|--server <dns_server>]".

(** main, given [os.Args]. *)
Definition main (sched : list nat) (Args : list string) (w : World) : Outcome unit :=
  and_then (run P initLogger w) (fun _ w =>
  if (length Args <? 2)%nat then run P (fmt.Println usage) w
  else
    let arg := nth 1 Args EmptyString in
    if strings.Contains arg "." then
      if (length Args =? 4)%nat && String.eqb (nth 2 Args EmptyString) "--server"
      then run P (fmt.Println "Coming soon ...") w
      else run P (records ← resolveDNS P arg; printRecords arg records) w
    else if strings.Contains arg ":" then
      run P (reverseDNS arg) w
    else if (length Args =? 3)%nat && String.eqb (nth 2 Args EmptyString) "--file" then
      resolveBatch sched arg w
    else
      run P (fmt.Println "Invalid input.") w).

End Process.

(** ** Definitions used to state the properties *)

(** What getCachedResult answers in a world, read off the cache map and the
    clock. *)
Definition cache_view (domain : string) (w : World) : RecordSet * bool :=
  match dnsCache w !! domain with
  | None => (∅, false)
  | Some entry =>
      if time.After (clock w) (expiry entry) then (∅, false) else (records entry, true)
  end.


(** The keys of the result that a resolver operation can fill. *)
Definition keys_of (op : LookupOp) : list string :=
  match op with
  | OpLookupIP => ["A"; "AAAA"]
  | OpLookupCNAME => ["CNAME"]
  | OpLookupMX => ["MX"]
  | OpLookupTXT => ["TXT"]
  | OpLookupNS => ["NS"]
  | OpLookupAddr => []
  end.

(** The five operations of one resolution, in the order of the code. *)
Definition resolve_ops : list LookupOp :=
  [OpLookupIP; OpLookupCNAME; OpLookupMX; OpLookupTXT; OpLookupNS].

(** Whether a primitive writes the cache entry of [domain]. *)
Definition stores_to (domain : string) {X : Type} (e : Eff X) : bool :=
  match e with
  | ECacheStore d _ => String.eqb d domain
  | _ => false
  end.

Definition advance_clock (d : Duration) (w : World) : World :=
  {| dnsCache := dnsCache w; cacheMutex := cacheMutex w; clock := time.Add (clock w) d;
     stdout := stdout w; logOutput := logOutput w; logged := logged w; calls := calls w;
     wg := wg w |}.

(** [no_put_since P domain w w']: the process went from [w] to [w'] through
    primitives none of which stored an entry for [domain], and through the
    passing of time. *)
Inductive no_put_since (P : Platform) (domain : string) : World -> World -> Prop :=
| nps_here (w : World) : no_put_since P domain w w
| nps_step {X : Type} (e : Eff X) (x : X) (w w' w'' : World) :
    stores_to domain e = false ->
    handle P e w = Done x w' ->
    no_put_since P domain w' w'' ->
    no_put_since P domain w w''
| nps_wait (d : Duration) (w w'' : World) :
    no_put_since P domain (advance_clock d w) w'' ->
    no_put_since P domain w w''.

(** [w'] differs from [w] at most in what was printed and logged. *)
Definition same_but_output (w w' : World) : Prop :=
  dnsCache w' = dnsCache w /\ cacheMutex w' = cacheMutex w /\ clock w' = clock w /\
  calls w' = calls w /\ wg w' = wg w.

(** The world after an error branch of resolveDNS: the message is logged
    when there is an error. *)
Definition log_error (msg : error -> string) (err : option error) (w : World) : World :=
  match err with
  | Some e => add_logged (msg e) w
  | None => w
  end.

(** The answers of the five lookups of one resolution, each Go's pair of a
    value and an error. *)
Record Answers := {
  ans_ip : list IP * option error;
  ans_cname : string * option error;
  ans_mx : list net.MX * option error;
  ans_txt : list string * option error;
  ans_ns : list net.NS * option error
}.

(** What every lookup block of resolveDNS does to the record set, given the
    answer of its lookup. *)
Definition merge_ip (P : Platform) (ans : list IP * option error) (rs : RecordSet) : RecordSet :=
  match ans.2 with Some _ => rs | None => fold_left (add_ip P) ans.1 rs end.
Definition merge_cname (ans : string * option error) (rs : RecordSet) : RecordSet :=
  match ans.2 with Some _ => rs | None => <["CNAME" := [ans.1]]> rs end.
Definition merge_mx (ans : list net.MX * option error) (rs : RecordSet) : RecordSet :=
  match ans.2 with Some _ => rs | None => fold_left add_mx ans.1 rs end.
Definition merge_txt (ans : list string * option error) (rs : RecordSet) : RecordSet :=
  match ans.2 with Some _ => rs | None => <["TXT" := ans.1]> rs end.
Definition merge_ns (ans : list net.NS * option error) (rs : RecordSet) : RecordSet :=
  match ans.2 with Some _ => rs | None => fold_left add_ns ans.1 rs end.

Definition aggregate (P : Platform) (a : Answers) : RecordSet :=
  merge_ns (ans_ns a) (merge_txt (ans_txt a) (merge_mx (ans_mx a)
    (merge_cname (ans_cname a) (merge_ip P (ans_ip a) ∅)))).

(** The resolver invocations that produced the answers, for [name]. *)
Definition answer_calls (name : string) (a : Answers) : list Call :=
  [ {| call_op := OpLookupIP; call_arg := name; call_err := (ans_ip a).2 |};
    {| call_op := OpLookupCNAME; call_arg := name; call_err := (ans_cname a).2 |};
    {| call_op := OpLookupMX; call_arg := name; call_err := (ans_mx a).2 |};
    {| call_op := OpLookupTXT; call_arg := name; call_err := (ans_txt a).2 |};
    {| call_op := OpLookupNS; call_arg := name; call_err := (ans_ns a).2 |} ].

(** ** A concrete platform and worlds, for examples *)

Module demo.

(** A stand-in for [idna.ToASCII] that knows no punycode: ASCII input is
    returned as it is, anything else is an error. *)
Fixpoint is_ascii (s : string) : bool :=
  match s with
  | EmptyString => true
  | String c s' => (nat_of_ascii c <? 128)%nat && is_ascii s'
  end.

Definition ToASCII (s : string) : string * option error :=
  if is_ascii s then (s, None) else (EmptyString, Some "idna: invalid label").

(** A stand-in for [ip.String()]: the bytes in decimal, joined by dots. *)
Definition byte_d (b : byte) : string := fmt.verb_d (Byte.to_N b).

Fixpoint IPString (ip : IP) : string :=
  match ip with
  | [] => EmptyString
  | [b] => byte_d b
  | b :: ip' => byte_d b +:+ "." +:+ IPString ip'
  end.

Definition no_such_host : option error := Some "no such host".

(** A resolver that knows one name.  Its TXT lookup succeeds with no
    record, and its MX lookup fails. *)
Definition knows (name : string) : bool := String.eqb name "example.com".

Definition platform : Platform := {|
  idna_ToASCII := ToASCII;
  IP_String := IPString;
  net_LookupIP := fun _ name =>
    if knows name
    then (([[x5d; xb8; xd8; x22];
            [x26; x06; x28; x00; x02; x20; x00; x01; x02; x48; x18; x93; x25; xc8; x19; x46]],
           None), 3 * time.Millisecond)
    else (([], no_such_host), 5 * time.Millisecond);
  net_LookupCNAME := fun _ name =>
    if knows name then (("example.com.", None), 2 * time.Millisecond)
    else ((EmptyString, no_such_host), 5 * time.Millisecond);
  net_LookupMX := fun _ name => (([], no_such_host), 4 * time.Millisecond);
  net_LookupTXT := fun _ name =>
    if knows name then (([], None), 2 * time.Millisecond)
    else (([], no_such_host), 5 * time.Millisecond);
  net_LookupNS := fun _ name =>
    if knows name
    then (([ {| net.NS_Host := "a.iana-servers.net." |};
             {| net.NS_Host := "b.iana-servers.net." |} ], None), 2 * time.Millisecond)
    else (([], no_such_host), 5 * time.Millisecond);
  net_LookupAddr := fun _ addr => ((["one.one.one.one."], None), 2 * time.Millisecond);
  os_OpenFile := fun _ => None;
  os_Open := fun path =>
    if String.eqb path "domains.txt" then (["example.com"; "example.org"], None)
    else if String.eqb path "twice.txt" then (["example.com"; "example.com"], None)
    else ([], Some "open: no such file or directory");
  map_range := fun _ m => map_to_list m;
  map_range_entries := fun _ m => Permutation_refl (map_to_list m)
|}.

(** Schedules for two workers: taking turns, and one after the other. *)
Definition taking_turns (n : nat) : list nat := concat (repeat [0; 1]%nat n).
Definition in_a_row (n : nat) : list nat := (repeat 0%nat n ++ repeat 1%nat n)%list.

(** A name with a letter outside ASCII (the two bytes of u-umlaut). *)
Definition idn : string :=
  String "m" (String (ascii_of_nat 195) (String (ascii_of_nat 188) "nchen.de")).

(** An IPv4 address in its IPv6-mapped text form: it has both a colon and
    a dot. *)
Definition mapped_ip : string := "::ffff:1.2.3.4".

(** The process right after its start: an empty cache, nothing printed. *)
Definition start : World := {|
  dnsCache := ∅; cacheMutex := false; clock := 0; stdout := []; logOutput := None;
  logged := []; calls := []; wg := 0
|}.

(** A world whose cache holds an entry for example.com that expires at
    clock reading [t]. *)
Definition entry_A : RecordSet := {["A" := ["93.184.216.34"]]}.

Definition cached_until (t now : Time) : World := {|
  dnsCache := {["example.com" := {| records := entry_A; expiry := t |}]};
  cacheMutex := false; clock := now; stdout := []; logOutput := None;
  logged := []; calls := []; wg := 0
|}.

End demo.

(** ** Definitions for the further properties *)

(** The answers that the five lookups of one resolution get when the first
    of them is made at clock reading [t], and the clock reading after the
    last: every lookup starts when the one before it has answered. *)
Definition observe (P : Platform) (name : string) (t : Time) : Answers * Time :=
  let r1 := net_LookupIP P t name in
  let t1 := time.Add t r1.2 in
  let r2 := net_LookupCNAME P t1 name in
  let t2 := time.Add t1 r2.2 in
  let r3 := net_LookupMX P t2 name in
  let t3 := time.Add t2 r3.2 in
  let r4 := net_LookupTXT P t3 name in
  let t4 := time.Add t3 r4.2 in
  let r5 := net_LookupNS P t4 name in
  ({| ans_ip := r1.1; ans_cname := r2.1; ans_mx := r3.1; ans_txt := r4.1; ans_ns := r5.1 |},
   time.Add t4 r5.2).

(** The line an error branch of resolveDNS hands to the logger. *)
Definition failure_line (prefix : string) (err : option error) : list string :=
  match err with
  | Some e => [prefix +:+ e +:+ nl]
  | None => []
  end.

Definition failure_lines (a : Answers) : list string :=
  (failure_line "Error looking up IP: " (ans_ip a).2 ++
   failure_line "Error looking up CNAME: " (ans_cname a).2 ++
   failure_line "Error looking up MX: " (ans_mx a).2 ++
   failure_line "Error looking up TXT: " (ans_txt a).2 ++
   failure_line "Error looking up NS: " (ans_ns a).2)%list.

(** [Some l] for a list with an element, [None] for the empty one: what a
    key filled by [append] in a loop holds. *)
Definition filled (l : list string) : option (list string) :=
  match l with
  | [] => None
  | _ :: _ => Some l
  end.

(** Whether [ip.To4() != nil]. *)
Definition is_v4 (ip : IP) : bool :=
  match net.To4 ip with Some _ => true | None => false end.

(** The text of an MX record in the result. *)
Definition render_mx (mx : net.MX) : string :=
  net.MX_Host mx +:+ " (Priority: " +:+ fmt.verb_d (net.MX_Pref mx) +:+ ")".

(** Whether a primitive is an invocation of the platform resolver. *)
Definition is_lookup {X : Type} (e : Eff X) : bool :=
  match e with
  | ELookupIP _ | ELookupCNAME _ | ELookupMX _ | ELookupTXT _ | ELookupNS _
  | ELookupAddr _ => true
  | _ => false
  end.

(** [lookups_unlocked P m w]: along the run of [m] from [w], the cache mutex
    is free at every invocation of the platform resolver. *)
Fixpoint lookups_unlocked (P : Platform) {A : Type} (m : Prog A) (w : World) : Prop :=
  match m with
  | Ret _ => True
  | Vis e k =>
      (is_lookup e = true -> cacheMutex w = false) /\
      match handle P e w with
      | Done x w' => lookups_unlocked P (k x) w'
      | _ => True
      end
  end.

(** The lines that printRecords and reverseDNS print: a value after a
    dash; for an entry of a record set its heading followed by its values;
    and the lines of the entries walked in a given order. *)
Definition bullet (value : string) : string := " - " +:+ value +:+ nl.

Definition section_lines (kv : string * list string) : list string :=
  (kv.1 +:+ " Records:" +:+ nl) :: map bullet kv.2.

Definition record_lines (entries : list (string * list string)) : list string :=
  entries ≫= section_lines.

(** [w'] differs from [w] at most in what was printed. *)
Definition only_stdout (w w' : World) : Prop :=
  dnsCache w' = dnsCache w /\ cacheMutex w' = cacheMutex w /\ clock w' = clock w /\
  logOutput w' = logOutput w /\ logged w' = logged w /\ calls w' = calls w /\ wg w' = wg w.

(** *** Goroutine pools *)

(** A goroutine that has run to its end. *)
Definition finished (t : Prog unit) : bool :=
  match t with
  | Ret _ => true
  | Vis _ _ => false
  end.

(** The number of goroutines of a pool that have not. *)
Definition unfinished (pool : list (Prog unit)) : nat :=
  length (List.filter (fun t => negb (finished t)) pool).

(** Primitives that neither touch the WaitGroup nor end the process. *)
Definition quiet {X : Type} (e : Eff X) : bool :=
  match e with
  | EWgAdd _ | EWgDone | ELogFatal _ => false
  | _ => true
  end.

Definition is_done {X : Type} (e : Eff X) : bool :=
  match e with
  | EWgDone => true
  | _ => false
  end.

(** A program made of quiet primitives only. *)
Fixpoint quiet_prog {A : Type} (m : Prog A) : Prop :=
  match m with
  | Ret _ => True
  | Vis e k => quiet e = true /\ forall x, quiet_prog (k x)
  end.

(** A goroutine that, on every path, runs quiet primitives and then ends
    with one [wg.Done()]. *)
Fixpoint ends_with_done (t : Prog unit) : Prop :=
  match t with
  | Ret _ => False
  | Vis e k =>
      (is_done e = true /\ forall x, finished (k x) = true) \/
      (quiet e = true /\ forall x, ends_with_done (k x))
  end.

Definition pool_ok (pool : list (Prog unit)) : Prop :=
  Forall (fun t => finished t = true \/ ends_with_done t) pool.

(** ** The first version of the program (main.go): no cache, no log *)

Module V1.
Section Program.
Variable P : Platform.

(** [fmt.Println] with a format string as its first operand: the string is
    printed as it stands, [%s] included, then a space and the error. *)
Definition resolveDNS (domain : string) : Prog unit :=
  fmt.Printf ("Resolving DNS for: " +:+ domain +:+ nl +:+ nl);;
  '(ips, err) ← perform (ELookupIP domain);
  match err with
  | Some err =>
      fmt.Println ("Error during DNS looking up: %s" +:+ nl +:+ nl +:+ " " +:+ err)
  | None =>
      fmt.Println "IP List";;
      forEach ips (fun ip =>
        match net.To4 ip with
        | Some _ => fmt.Println (" - " +:+ IP_String P ip)
        | None => mret tt
        end);;
      fmt.Println (nl +:+ "AAAA Records (IPv6):");;
      forEach ips (fun ip =>
        match net.To4 ip with
        | None => fmt.Println (" - " +:+ IP_String P ip)
        | Some _ => mret tt
        end);;
      (* CNAME Records *)
      '(cname, err) ← perform (ELookupCNAME domain);
      match err with
      | Some err => fmt.Printf (nl +:+ "Error looking up CNAME: " +:+ err +:+ nl)
      | None => fmt.Printf (nl +:+ "CNAME Record:" +:+ nl +:+ " - " +:+ cname +:+ nl)
      end;;
      (* MX Records *)
      '(mxRecords, err) ← perform (ELookupMX domain);
      match err with
      | Some err => fmt.Printf (nl +:+ "Error looking up MX records: " +:+ err +:+ nl)
      | None =>
          fmt.Println (nl +:+ "MX Records (Mail Exchange):");;
          forEach mxRecords (fun mx =>
            fmt.Printf (" - " +:+ net.MX_Host mx +:+ " (Priority: "
                        +:+ fmt.verb_d (net.MX_Pref mx) +:+ ")" +:+ nl))
      end
  end.

(** main, given [os.Args]; [os.Exit(1)] ends the process. *)
Definition main (Args : list string) (w : World) : Outcome unit :=
  and_then (run P (fmt.Println ("Hello World!" +:+ nl +:+ nl)) w) (fun _ w =>
  if (length Args <? 2)%nat then
    and_then (run P (fmt.Println "Usage: go run main.go <domain>") w)
      (fun _ w => Exited 1 w)
  else
    let domain := nth 1 Args EmptyString in
    run P (resolveDNS domain) w).

End Program.
End V1.

(** The world after the given pieces of text have been printed. *)
Definition print_lines (lines : list string) (w : World) : World :=
  fold_left (fun w0 s => add_stdout s w0) lines w.

(** ** More concrete inputs, for examples *)

Module demo2.

(** A platform on which the log file cannot be opened, every other file is
    empty, a map is walked backwards and the rest is as on
    [demo.platform]. *)
Definition read_only : Platform := {|
  idna_ToASCII := idna_ToASCII demo.platform;
  IP_String := IP_String demo.platform;
  net_LookupIP := net_LookupIP demo.platform;
  net_LookupCNAME := net_LookupCNAME demo.platform;
  net_LookupMX := net_LookupMX demo.platform;
  net_LookupTXT := net_LookupTXT demo.platform;
  net_LookupNS := net_LookupNS demo.platform;
  net_LookupAddr := net_LookupAddr demo.platform;
  os_OpenFile := fun _ => Some "open dns_resolver.log: permission denied";
  os_Open := fun _ => ([], None);
  map_range := fun _ m => reverse (map_to_list m);
  map_range_entries := fun _ m => reverse_Permutation (map_to_list m)
|}.

(** The world right after [cacheResult "example.com" demo.entry_A] at the
    start of the process. *)
Definition stored : World :=
  set_cache (insert "example.com"
               {| records := demo.entry_A; expiry := 10 * time.Minute |}) demo.start.

(** The addresses that [demo.platform] returns for example.com. *)
Definition addresses : list IP := (net_LookupIP demo.platform 0 "example.com").1.1.

End demo2.
(** * Verification *)

(** ** Running programs *)

Section RunFacts.
Variable P : Platform.

Lemma run_bind {A B : Type} (m : Prog A) (f : A -> Prog B) (w : World) :
  run P (m ≫= f) w = and_then (run P m w) (fun a w' => run P (f a) w').
Proof.
  revert w. induction m as [a | X e k IH]; intros w; [reflexivity |].
  change (run P (Vis e k ≫= f) w) with
    (match handle P e w with
     | Done x w' => run P (k x ≫= f) w'
     | Halt code w' => Exited code w'
     | Wait => Blocked w
     end).
  simpl. destruct (handle P e w) as [x w' | code w' |]; [apply IH | reflexivity ..].
Qed.

Lemma run_perform {X : Type} (e : Eff X) (x : X) (w w' : World) :
  handle P e w = Done x w' -> run P (perform e) w = Returned x w'.
Proof. intros H. simpl. rewrite H. reflexivity. Qed.

End RunFacts.

(** A mutex that was free is free again after a lock and an unlock, and
    nothing else has changed. *)
Lemma unlock_lock (w : World) :
  cacheMutex w = false -> set_mutex false (set_mutex true w) = w.
Proof. destruct w; simpl; intros ->; reflexivity. Qed.

Lemma unlock_store_lock (f : gmap string CacheEntry -> gmap string CacheEntry) (w : World) :
  cacheMutex w = false ->
  set_mutex false (set_cache f (set_mutex true w)) = set_cache f w.
Proof. destruct w; simpl; intros ->; reflexivity. Qed.

(** ** The cache store *)

Section CacheStore.
Variable P : Platform.

Lemma getCachedResult_run (domain : string) (w : World) :
  cacheMutex w = false ->
  run P (getCachedResult domain) w = Returned (cache_view domain w) w.
Proof.
  intros Hfree. unfold cache_view. simpl. rewrite Hfree. simpl.
  destruct (dnsCache w !! domain) as [entry |]; simpl.
  - destruct (time.After (clock w) (expiry entry)); simpl; rewrite unlock_lock; done.
  - rewrite unlock_lock; done.
Qed.

Lemma cacheResult_run (domain : string) (rs : RecordSet) (w : World) :
  cacheMutex w = false ->
  run P (cacheResult domain rs) w =
  Returned tt (set_cache (insert domain
    {| records := rs; expiry := time.Add (clock w) (10 * time.Minute) |}) w).
Proof.
  intros Hfree. simpl. rewrite Hfree. simpl. rewrite unlock_store_lock; done.
Qed.

Lemma cache_view_found_false (domain : string) (w : World) :
  (cache_view domain w).2 = false <->
  dnsCache w !! domain = None \/
  exists e, dnsCache w !! domain = Some e /\ expiry e < clock w.
Proof.
  unfold cache_view, time.After.
  destruct (dnsCache w !! domain) as [e |]; [| simpl; tauto].
  destruct (Z.ltb_spec (expiry e) (clock w)); simpl; split.
  - intros _. right. exists e. split; [reflexivity | lia].
  - reflexivity.
  - discriminate.
  - intros [? | (e' & [= <-] & ?)]; [discriminate | lia].
Qed.

Lemma cache_view_found_true (domain : string) (w : World) (rs : RecordSet) :
  cache_view domain w = (rs, true) ->
  exists e, dnsCache w !! domain = Some e /\ records e = rs /\ clock w <= expiry e.
Proof.
  unfold cache_view, time.After.
  destruct (dnsCache w !! domain) as [e |]; [| discriminate].
  destruct (Z.ltb_spec (expiry e) (clock w)); [discriminate |].
  intros [= <-]. exists e. repeat split; lia.
Qed.

(** A primitive that is not a store to [domain] leaves its entry alone. *)
Lemma handle_keeps_entry {X : Type} (domain : string) (e : Eff X) (x : X) (w w' : World) :
  stores_to domain e = false ->
  handle P e w = Done x w' ->
  dnsCache w' !! domain = dnsCache w !! domain.
Proof.
  intros Hst Hdone.
  destruct e; simpl in Hst, Hdone;
    try (injection Hdone as <- <-; reflexivity);
    try discriminate.
  - destruct (cacheMutex w); [discriminate |]. injection Hdone as <- <-. reflexivity.
  - injection Hdone as <- <-. simpl.
    apply lookup_insert_ne. intros ->. rewrite String.eqb_refl in Hst. discriminate.
  - destruct (wg w <=? 0); [discriminate |]. injection Hdone as <- <-. reflexivity.
Qed.

Lemma no_put_since_entry (domain : string) (w w' : World) :
  no_put_since P domain w w' -> dnsCache w' !! domain = dnsCache w !! domain.
Proof.
  induction 1 as [w | X e x w w' w'' Hst Hdone _ IH | d w w'' _ IH];
    [reflexivity | | exact IH].
  rewrite IH. eapply handle_keeps_entry; eassumption.
Qed.

(** C4. getCachedResult, called with the mutex free, returns to its caller
    and leaves the world as it was.  It reports [found = false] exactly
    when the cache has no entry for the domain or the entry's expiry is
    earlier than the clock; and when it reports [found = true], the record
    set it returns is the one handed to the most recent cacheResult for
    that domain. *)
Theorem getCachedResult_spec (domain : string) (w : World) :
  cacheMutex w = false ->
  exists (rs : RecordSet) (found : bool),
    run P (getCachedResult domain) w = Returned (rs, found) w /\
    (found = false <->
       dnsCache w !! domain = None \/
       exists e, dnsCache w !! domain = Some e /\ expiry e < clock w) /\
    (found = true ->
       forall (stored : RecordSet) (w0 w1 : World),
         cacheMutex w0 = false ->
         run P (cacheResult domain stored) w0 = Returned tt w1 ->
         no_put_since P domain w1 w ->
         rs = stored).
Proof.
  intros Hfree.
  destruct (cache_view domain w) as [rs found] eqn:Hview.
  exists rs, found. split; [| split].
  - rewrite getCachedResult_run, Hview; done.
  - rewrite <- (cache_view_found_false domain w), Hview. reflexivity.
  - intros -> stored w0 w1 Hfree0 Hput Hsince.
    apply cache_view_found_true in Hview as (e & He & <- & _).
    rewrite (cacheResult_run domain stored w0 Hfree0) in Hput.
    injection Hput as <-.
    rewrite (no_put_since_entry _ _ _ Hsince) in He. simpl in He.
    rewrite lookup_insert_eq in He. injection He as <-. reflexivity.
Qed.

(** C5. cacheResult, called with the mutex free, returns to its caller; the
    cache then maps the domain to the given record set with the expiry set
    to the clock reading plus ten minutes (600 000 000 000 ns), whatever
    the cache held for the domain before; the entries of all other domains
    are as they were, and so is the rest of the world. *)
Theorem cacheResult_spec (domain : string) (rs : RecordSet) (w : World) :
  cacheMutex w = false ->
  exists w' : World,
    run P (cacheResult domain rs) w = Returned tt w' /\
    dnsCache w' !! domain = Some {| records := rs; expiry := clock w + 600000000000 |} /\
    (forall other : string, other <> domain -> dnsCache w' !! other = dnsCache w !! other) /\
    w' = set_cache (fun _ => dnsCache w') w.
Proof.
  intros Hfree. eexists. split; [apply cacheResult_run, Hfree |].
  simpl. split; [| split].
  - apply lookup_insert_eq.
  - intros other Hne. apply lookup_insert_ne. congruence.
  - reflexivity.
Qed.

(** C10. With an entry for the domain in the cache and the mutex free,
    getCachedResult at a clock reading equal to the entry's expiry still
    reports the entry ([found = true], with its record set); it reports
    [found = false] exactly when the clock is strictly later than the
    expiry. *)
Theorem getCachedResult_at_expiry (domain : string) (e : CacheEntry) (w : World) :
  cacheMutex w = false ->
  dnsCache w !! domain = Some e ->
  exists (rs : RecordSet) (found : bool),
    run P (getCachedResult domain) w = Returned (rs, found) w /\
    (clock w = expiry e -> found = true /\ rs = records e) /\
    (found = false <-> expiry e < clock w).
Proof.
  intros Hfree He.
  rewrite (getCachedResult_run domain w Hfree).
  unfold cache_view, time.After. rewrite He.
  destruct (Z.ltb_spec (expiry e) (clock w)); eexists _, _;
    (split; [reflexivity |]); split; try (intros; lia); try done.
Qed.

End CacheStore.

Lemma getCachedResult_spec_witness :
  cacheMutex (demo.cached_until 100 50) = false /\
  exists (rs : RecordSet) (found : bool),
    run demo.platform (getCachedResult "example.com") (demo.cached_until 100 50)
    = Returned (rs, found) (demo.cached_until 100 50).
Proof.
  split; [reflexivity |].
  destruct (getCachedResult_spec demo.platform "example.com"
              (demo.cached_until 100 50) eq_refl) as (rs & found & Hrun & _).
  exists rs, found. exact Hrun.
Defined.

Lemma cacheResult_spec_witness :
  cacheMutex demo.start = false /\
  exists w' : World,
    run demo.platform (cacheResult "example.com" demo.entry_A) demo.start = Returned tt w' /\
    dnsCache w' !! "example.com"
    = Some {| records := demo.entry_A; expiry := clock demo.start + 600000000000 |}.
Proof.
  split; [reflexivity |].
  destruct (cacheResult_spec demo.platform "example.com" demo.entry_A demo.start eq_refl)
    as (w' & Hrun & Hentry & _).
  exists w'. split; [exact Hrun | exact Hentry].
Defined.

Lemma getCachedResult_at_expiry_witness :
  cacheMutex (demo.cached_until 100 100) = false /\
  dnsCache (demo.cached_until 100 100) !! "example.com"
  = Some {| records := demo.entry_A; expiry := 100 |} /\
  exists (rs : RecordSet) (found : bool),
    run demo.platform (getCachedResult "example.com") (demo.cached_until 100 100)
    = Returned (rs, found) (demo.cached_until 100 100) /\
    found = true.
Proof.
  split; [reflexivity |]. split; [reflexivity |].
  destruct (getCachedResult_at_expiry demo.platform "example.com"
              {| records := demo.entry_A; expiry := 100 |}
              (demo.cached_until 100 100) eq_refl eq_refl)
    as (rs & found & Hrun & Hat & _).
  exists rs, found. split; [exact Hrun | exact (proj1 (Hat eq_refl))].
Defined.

(** ** The normalizer *)

Section Normalizer.
Variable P : Platform.

Lemma same_but_output_refl (w : World) : same_but_output w w.
Proof. repeat split. Qed.

Lemma same_but_output_logged (s : string) (w : World) : same_but_output w (add_logged s w).
Proof. repeat split. Qed.

(** normalizeDomain always returns, with a value that the input alone
    decides, and touches nothing but the log. *)
Lemma normalizeDomain_run (domain : string) :
  exists out : string,
    forall w : World, exists w' : World,
      run P (normalizeDomain P domain) w = Returned out w' /\ same_but_output w w'.
Proof.
  unfold normalizeDomain.
  destruct (idna_ToASCII P domain) as [normalized [err |]].
  - exists domain. intros w. eexists. split; [reflexivity | apply same_but_output_logged].
  - exists normalized. intros w. eexists. split; [reflexivity | apply same_but_output_refl].
Qed.

(** C7. When [idna.ToASCII] fails, normalizeDomain still returns to its
    caller, and what it returns is the input string itself; and for every
    input, two calls, in whatever states of the process, return the same
    string. *)
Theorem normalizeDomain_spec (domain : string) :
  (forall (err : error) (w : World),
     (idna_ToASCII P domain).2 = Some err ->
     exists w' : World, run P (normalizeDomain P domain) w = Returned domain w') /\
  (forall w1 w2 : World,
     exists (out : string) (w1' w2' : World),
       run P (normalizeDomain P domain) w1 = Returned out w1' /\
       run P (normalizeDomain P domain) w2 = Returned out w2').
Proof.
  split.
  - intros err w Herr. unfold normalizeDomain.
    destruct (idna_ToASCII P domain) as [normalized [err' |]]; [| discriminate].
    eexists. reflexivity.
  - intros w1 w2. destruct (normalizeDomain_run domain) as (out & Hout).
    destruct (Hout w1) as (w1' & H1 & _), (Hout w2) as (w2' & H2 & _).
    exists out, w1', w2'. split; assumption.
Qed.

End Normalizer.

Lemma normalizeDomain_spec_witness :
  (idna_ToASCII demo.platform demo.idn).2 = Some "idna: invalid label" /\
  exists w' : World,
    run demo.platform (normalizeDomain demo.platform demo.idn) demo.start
    = Returned demo.idn w'.
Proof.
  split; [reflexivity |].
  exact (proj1 (normalizeDomain_spec demo.platform demo.idn)
           "idna: invalid label" demo.start eq_refl).
Defined.

(** ** The resolver *)

Section Resolver.
Variable P : Platform.

(** An error branch followed by the rest of the function. *)
Lemma run_fallible {A : Type} (err : option error) (msg : error -> string)
    (ok keep : RecordSet) (k : RecordSet -> Prog A) (w : World) :
  run P (match err with
         | Some e => log.Printf (msg e) ≫= (fun _ => mret keep)
         | None => mret ok
         end ≫= k) w
  = run P (k (match err with Some _ => keep | None => ok end)) (log_error msg err w).
Proof. destruct err; reflexivity. Qed.

Lemma calls_log_error msg err w : calls (log_error msg err w) = calls w.
Proof. destruct err; reflexivity. Qed.
Lemma clock_log_error msg err w : clock (log_error msg err w) = clock w.
Proof. destruct err; reflexivity. Qed.
Lemma dnsCache_log_error msg err w : dnsCache (log_error msg err w) = dnsCache w.
Proof. destruct err; reflexivity. Qed.
Lemma cacheMutex_log_error msg err w : cacheMutex (log_error msg err w) = cacheMutex w.
Proof. destruct err; reflexivity. Qed.
Lemma calls_add_call c d w : calls (add_call c d w) = (calls w ++ [c])%list.
Proof. reflexivity. Qed.
Lemma dnsCache_add_call c d w : dnsCache (add_call c d w) = dnsCache w.
Proof. reflexivity. Qed.
Lemma cacheMutex_add_call c d w : cacheMutex (add_call c d w) = cacheMutex w.
Proof. reflexivity. Qed.

Create Rewrite HintDb world.
#[local] Hint Rewrite calls_log_error clock_log_error dnsCache_log_error cacheMutex_log_error
  calls_add_call dnsCache_add_call cacheMutex_add_call : world.

(** One lookup block: the call, then the success or the error branch. *)
Ltac lookup_block f v err dur :=
  rewrite run_bind; erewrite run_perform by reflexivity;
  cbn [and_then lookup_step];
  match goal with
  | |- context [f P ?t ?n] => destruct (f P t n) as [[v err] dur]
  end;
  cbn [fst snd]; rewrite run_fallible.

(** On a hit resolveDNS prints the notice and returns the cached set. *)
Lemma resolveDNS_hit (domain nd : string) (rs : RecordSet) (w w1 : World) :
  cacheMutex w1 = false ->
  run P (normalizeDomain P domain) w = Returned nd w1 ->
  cache_view nd w1 = (rs, true) ->
  run P (resolveDNS P domain) w = Returned rs (add_stdout ("Cache hit!" +:+ nl) w1).
Proof.
  intros Hfree Hnorm Hview. unfold resolveDNS.
  rewrite run_bind, Hnorm. cbn [and_then].
  rewrite run_bind, getCachedResult_run, Hview by assumption.
  reflexivity.
Qed.

(** On a miss resolveDNS makes the five lookups one after the other, builds
    the record set from their answers, stores it and returns it. *)
Lemma resolveDNS_miss (domain nd : string) (rs : RecordSet) (w w1 : World) :
  cacheMutex w1 = false ->
  run P (normalizeDomain P domain) w = Returned nd w1 ->
  cache_view nd w1 = (rs, false) ->
  exists (a : Answers) (w' : World),
    run P (resolveDNS P domain) w = Returned (aggregate P a) w' /\
    calls w' = (calls w1 ++ answer_calls nd a)%list /\
    dnsCache w' = <[nd := {| records := aggregate P a;
                             expiry := time.Add (clock w') (10 * time.Minute) |}]>
                    (dnsCache w1) /\
    cacheMutex w' = false.
Proof.
  intros Hfree Hnorm Hview. unfold resolveDNS.
  rewrite run_bind, Hnorm. cbn [and_then].
  rewrite run_bind, getCachedResult_run, Hview by assumption.
  cbn [and_then].
  lookup_block net_LookupIP ips e1 d1.
  lookup_block net_LookupCNAME cname e2 d2.
  lookup_block net_LookupMX mxs e3 d3.
  lookup_block net_LookupTXT txts e4 d4.
  lookup_block net_LookupNS nss e5 d5.
  rewrite run_bind, cacheResult_run by (autorewrite with world; assumption).
  exists {| ans_ip := (ips, e1); ans_cname := (cname, e2); ans_mx := (mxs, e3);
            ans_txt := (txts, e4); ans_ns := (nss, e5) |}.
  eexists. split; [reflexivity |].
  cbn [set_cache calls dnsCache cacheMutex clock].
  autorewrite with world. rewrite <- !app_assoc.
  repeat split; assumption.
Qed.

(** *** The record set built from the answers *)

Lemma append_at_other (key v k : string) (rs : RecordSet) :
  k <> key -> append_at key v rs !! k = rs !! k.
Proof. intros Hne. apply lookup_insert_ne. congruence. Qed.

Lemma fold_add_ip_other (ips : list IP) (rs : RecordSet) (k : string) :
  k <> "A" -> k <> "AAAA" -> fold_left (add_ip P) ips rs !! k = rs !! k.
Proof.
  intros HA HAAAA. revert rs.
  induction ips as [| ip ips IH]; intros rs; [reflexivity |].
  simpl. rewrite IH. unfold add_ip.
  destruct (net.To4 ip); apply append_at_other; assumption.
Qed.

Lemma fold_add_mx_other (mxs : list net.MX) (rs : RecordSet) (k : string) :
  k <> "MX" -> fold_left add_mx mxs rs !! k = rs !! k.
Proof.
  intros Hne. revert rs.
  induction mxs as [| mx mxs IH]; intros rs; [reflexivity |].
  simpl. rewrite IH. apply append_at_other, Hne.
Qed.

Lemma fold_add_ns_other (nss : list net.NS) (rs : RecordSet) (k : string) :
  k <> "NS" -> fold_left add_ns nss rs !! k = rs !! k.
Proof.
  intros Hne. revert rs.
  induction nss as [| ns nss IH]; intros rs; [reflexivity |].
  simpl. rewrite IH. apply append_at_other, Hne.
Qed.

(** A block leaves a key as it was when its lookup failed, and when the key
    is not one of its own. *)
Lemma merge_ip_keeps ans (rs : RecordSet) (k : string) :
  ans.2 <> None \/ (k <> "A" /\ k <> "AAAA") -> merge_ip P ans rs !! k = rs !! k.
Proof.
  unfold merge_ip. destruct ans.2; [reflexivity |].
  intros [? | [? ?]]; [congruence | by apply fold_add_ip_other].
Qed.

Lemma merge_cname_keeps ans (rs : RecordSet) (k : string) :
  ans.2 <> None \/ k <> "CNAME" -> merge_cname ans rs !! k = rs !! k.
Proof.
  unfold merge_cname. destruct ans.2; [reflexivity |].
  intros [? | ?]; [congruence | apply lookup_insert_ne; congruence].
Qed.

Lemma merge_mx_keeps ans (rs : RecordSet) (k : string) :
  ans.2 <> None \/ k <> "MX" -> merge_mx ans rs !! k = rs !! k.
Proof.
  unfold merge_mx. destruct ans.2; [reflexivity |].
  intros [? | ?]; [congruence | by apply fold_add_mx_other].
Qed.

Lemma merge_txt_keeps ans (rs : RecordSet) (k : string) :
  ans.2 <> None \/ k <> "TXT" -> merge_txt ans rs !! k = rs !! k.
Proof.
  unfold merge_txt. destruct ans.2; [reflexivity |].
  intros [? | ?]; [congruence | apply lookup_insert_ne; congruence].
Qed.

Lemma merge_ns_keeps ans (rs : RecordSet) (k : string) :
  ans.2 <> None \/ k <> "NS" -> merge_ns ans rs !! k = rs !! k.
Proof.
  unfold merge_ns. destruct ans.2; [reflexivity |].
  intros [? | ?]; [congruence | by apply fold_add_ns_other].
Qed.

(** Side conditions of the [_keeps] lemmas, and membership in a list that is
    written out. *)
Ltac other_key :=
  first [left; assumption | right; repeat split; first [discriminate | assumption]].
Ltac in_list :=
  solve [repeat first [apply list_elem_of_here | apply list_elem_of_further]].

(** A key of a lookup that failed is not in the record set. *)
Lemma aggregate_absent (name : string) (a : Answers) (c : Call) (k : string) :
  c ∈ answer_calls name a ->
  call_err c <> None ->
  k ∈ keys_of (call_op c) ->
  aggregate P a !! k = None.
Proof.
  unfold answer_calls. rewrite !elem_of_cons, elem_of_nil.
  intros [-> | [-> | [-> | [-> | [-> | []]]]]]; simpl; intros Herr;
    rewrite !elem_of_cons, elem_of_nil; intros Hk;
    repeat (destruct Hk as [-> | Hk]); try destruct Hk;
    unfold aggregate;
    rewrite merge_ns_keeps, merge_txt_keeps, merge_mx_keeps,
      merge_cname_keeps, merge_ip_keeps by other_key;
    apply lookup_empty.
Qed.

(** With every lookup failed the record set is empty. *)
Lemma aggregate_all_failed (name : string) (a : Answers) :
  (forall c, c ∈ answer_calls name a -> call_err c <> None) ->
  aggregate P a = ∅.
Proof.
  intros Hall. apply map_eq. intros k.
  assert (H1 : (ans_ip a).2 <> None) by (apply (Hall (Build_Call OpLookupIP name _)); in_list).
  assert (H2 : (ans_cname a).2 <> None) by (apply (Hall (Build_Call OpLookupCNAME name _)); in_list).
  assert (H3 : (ans_mx a).2 <> None) by (apply (Hall (Build_Call OpLookupMX name _)); in_list).
  assert (H4 : (ans_txt a).2 <> None) by (apply (Hall (Build_Call OpLookupTXT name _)); in_list).
  assert (H5 : (ans_ns a).2 <> None) by (apply (Hall (Build_Call OpLookupNS name _)); in_list).
  unfold aggregate.
  rewrite merge_ns_keeps, merge_txt_keeps, merge_mx_keeps,
    merge_cname_keeps, merge_ip_keeps by (left; assumption).
  reflexivity.
Qed.

(** *** Which keys are present, and with what *)

(** [append_at] never leaves an empty list behind. *)
Lemma append_at_nonempty (key v k : string) (rs : RecordSet) :
  (forall vs, rs !! k = Some vs -> vs <> []) ->
  forall vs, append_at key v rs !! k = Some vs -> vs <> [].
Proof.
  intros Hrs vs. unfold append_at.
  destruct (decide (key = k)) as [-> | Hne].
  - rewrite lookup_insert_eq. intros [= <-]. by destruct (default [] (rs !! k)).
  - rewrite lookup_insert_ne by assumption. apply Hrs.
Qed.

Lemma fold_append_nonempty {A : Type} (f : RecordSet -> A -> RecordSet) (k : string) :
  (forall rs x, exists key v, f rs x = append_at key v rs) ->
  forall (l : list A) (rs : RecordSet),
    (forall vs, rs !! k = Some vs -> vs <> []) ->
    forall vs, fold_left f l rs !! k = Some vs -> vs <> [].
Proof.
  intros Hf l. induction l as [| x l IH]; intros rs Hrs; [exact Hrs |].
  simpl. apply IH. destruct (Hf rs x) as (key & v & ->).
  by apply append_at_nonempty.
Qed.

Lemma add_ip_appends (rs : RecordSet) (ip : IP) :
  exists key v, add_ip P rs ip = append_at key v rs.
Proof. unfold add_ip. destruct (net.To4 ip); eauto. Qed.

Lemma add_mx_appends (rs : RecordSet) (mx : net.MX) :
  exists key v, add_mx rs mx = append_at key v rs.
Proof. unfold add_mx. eauto. Qed.

Lemma add_ns_appends (rs : RecordSet) (ns : net.NS) :
  exists key v, add_ns rs ns = append_at key v rs.
Proof. unfold add_ns. eauto. Qed.


(** A key is in the record set only when a lookup that can fill it
    succeeded; and its list is not empty, unless the key is TXT. *)
Lemma aggregate_present (name : string) (a : Answers) (k : string) (vs : list string) :
  aggregate P a !! k = Some vs ->
  exists c : Call,
    c ∈ answer_calls name a /\ call_err c = None /\ k ∈ keys_of (call_op c) /\
    (k <> "TXT" -> vs <> []).
Proof.
  unfold aggregate. intros Hk.
  destruct (decide (k = "NS")) as [-> | HNS].
  { unfold merge_ns in Hk. destruct (ans_ns a).2 eqn:Herr.
    - rewrite merge_txt_keeps, merge_mx_keeps, merge_cname_keeps, merge_ip_keeps in Hk
        by other_key. discriminate.
    - exists {| call_op := OpLookupNS; call_arg := name; call_err := (ans_ns a).2 |}.
      split; [unfold answer_calls; in_list |]. split; [exact Herr |].
      split; [simpl; in_list |]. intros _.
      eapply (fold_append_nonempty add_ns "NS" add_ns_appends); [| exact Hk].
      intros vs'. rewrite merge_txt_keeps, merge_mx_keeps, merge_cname_keeps,
        merge_ip_keeps by other_key. discriminate. }
  rewrite merge_ns_keeps in Hk by other_key.
  destruct (decide (k = "TXT")) as [-> | HTXT].
  { unfold merge_txt in Hk. destruct (ans_txt a).2 eqn:Herr.
    - rewrite merge_mx_keeps, merge_cname_keeps, merge_ip_keeps in Hk by other_key.
      discriminate.
    - exists {| call_op := OpLookupTXT; call_arg := name; call_err := (ans_txt a).2 |}.
      split; [unfold answer_calls; in_list |]. split; [exact Herr |].
      split; [simpl; in_list | congruence]. }
  rewrite merge_txt_keeps in Hk by other_key.
  destruct (decide (k = "MX")) as [-> | HMX].
  { unfold merge_mx in Hk. destruct (ans_mx a).2 eqn:Herr.
    - rewrite merge_cname_keeps, merge_ip_keeps in Hk by other_key. discriminate.
    - exists {| call_op := OpLookupMX; call_arg := name; call_err := (ans_mx a).2 |}.
      split; [unfold answer_calls; in_list |]. split; [exact Herr |].
      split; [simpl; in_list |]. intros _.
      eapply (fold_append_nonempty add_mx "MX" add_mx_appends); [| exact Hk].
      intros vs'. rewrite merge_cname_keeps, merge_ip_keeps by other_key. discriminate. }
  rewrite merge_mx_keeps in Hk by other_key.
  destruct (decide (k = "CNAME")) as [-> | HCNAME].
  { unfold merge_cname in Hk. destruct (ans_cname a).2 eqn:Herr.
    - rewrite merge_ip_keeps in Hk by other_key. discriminate.
    - exists {| call_op := OpLookupCNAME; call_arg := name; call_err := (ans_cname a).2 |}.
      split; [unfold answer_calls; in_list |]. split; [exact Herr |].
      split; [simpl; in_list |]. intros _.
      rewrite lookup_insert_eq in Hk. injection Hk as <-. discriminate. }
  rewrite merge_cname_keeps in Hk by other_key.
  destruct (decide (k = "A" \/ k = "AAAA")) as [HA | HA].
  - unfold merge_ip in Hk. destruct (ans_ip a).2 eqn:Herr; [discriminate |].
    exists {| call_op := OpLookupIP; call_arg := name; call_err := (ans_ip a).2 |}.
    split; [unfold answer_calls; in_list |]. split; [exact Herr |].
    split; [destruct HA as [-> | ->]; simpl; in_list |]. intros _.
    eapply (fold_append_nonempty (add_ip P) k add_ip_appends); [| exact Hk].
    intros vs'. discriminate.
  - rewrite merge_ip_keeps in Hk by (right; split; intros ->; apply HA; auto).
    discriminate.
Qed.

(** A TXT lookup that succeeds puts the key TXT in the record set with
    whatever list it returned, the empty one included. *)
Lemma aggregate_txt (a : Answers) :
  (ans_txt a).2 = None -> aggregate P a !! "TXT" = Some (ans_txt a).1.
Proof.
  intros Herr. unfold aggregate.
  rewrite merge_ns_keeps by other_key.
  unfold merge_txt. rewrite Herr. apply lookup_insert_eq.
Qed.

Lemma answer_calls_ops (name : string) (a : Answers) :
  map call_op (answer_calls name a) = resolve_ops.
Proof. reflexivity. Qed.

(** What normalizeDomain hands to the rest of resolveDNS. *)
Lemma normalizeDomain_frame (domain nd : string) (w w1 : World) :
  run P (normalizeDomain P domain) w = Returned nd w1 -> same_but_output w w1.
Proof.
  intros Hnorm. destruct (normalizeDomain_run P domain) as (out & Hout).
  destruct (Hout w) as (w' & Hrun & Hsame).
  rewrite Hrun in Hnorm. injection Hnorm as _ <-. exact Hsame.
Qed.

(** C3. When the cache holds, for the normalized domain, an entry whose
    expiry is not earlier than the clock, resolveDNS (called with the mutex
    free) returns the record set of that entry and invokes no operation of
    the platform resolver; the cache is left as it was. *)
Theorem resolveDNS_cache_hit (domain nd : string) (e : CacheEntry) (w w1 : World) :
  cacheMutex w = false ->
  run P (normalizeDomain P domain) w = Returned nd w1 ->
  dnsCache w !! nd = Some e ->
  clock w <= expiry e ->
  exists w' : World,
    run P (resolveDNS P domain) w = Returned (records e) w' /\
    calls w' = calls w /\
    dnsCache w' = dnsCache w.
Proof.
  intros Hfree Hnorm He Hfresh.
  destruct (normalizeDomain_frame _ _ _ _ Hnorm) as (Hcache & Hmutex & Hclock & Hcalls & _).
  eexists. split.
  - apply (resolveDNS_hit domain nd (records e) w w1); [congruence | assumption |].
    unfold cache_view, time.After. rewrite Hcache, He, Hclock.
    destruct (Z.ltb_spec (expiry e) (clock w)); [lia | reflexivity].
  - split; assumption.
Qed.

(** C1. resolveDNS, called with the mutex free, always returns a record set
    to its caller, whatever the lookups answer.  On a miss (no entry for
    the normalized domain, or one whose expiry is earlier than the clock)
    it makes all five lookups on the normalized domain, in the order
    LookupIP, LookupCNAME, LookupMX, LookupTXT, LookupNS, whichever of them
    fail; on a hit it makes none.  No key of a lookup that failed is in the
    returned record set. *)
Theorem resolveDNS_partial_failure (domain nd : string) (w w1 : World) :
  cacheMutex w = false ->
  run P (normalizeDomain P domain) w = Returned nd w1 ->
  exists (rs : RecordSet) (w' : World) (made : list Call),
    run P (resolveDNS P domain) w = Returned rs w' /\
    calls w' = (calls w ++ made)%list /\
    ((forall e : CacheEntry, dnsCache w !! nd = Some e -> expiry e < clock w) ->
     map call_op made = resolve_ops /\ Forall (fun c => call_arg c = nd) made) /\
    ((exists e : CacheEntry, dnsCache w !! nd = Some e /\ clock w <= expiry e) ->
     made = []) /\
    (forall (c : Call) (k : string),
       c ∈ made -> call_err c <> None -> k ∈ keys_of (call_op c) -> rs !! k = None).
Proof.
  intros Hfree Hnorm.
  destruct (normalizeDomain_frame _ _ _ _ Hnorm) as (Hcache & Hmutex & Hclock & Hcalls & _).
  assert (Hfree1 : cacheMutex w1 = false) by congruence.
  destruct (cache_view nd w1) as [cached [|]] eqn:Hview.
  - exists cached, (add_stdout ("Cache hit!" +:+ nl) w1), [].
    split; [by apply (resolveDNS_hit domain nd) |].
    split; [simpl; rewrite Hcalls, app_nil_r; reflexivity |].
    split; [| split; [reflexivity |]].
    + intros Hmiss. exfalso.
      apply cache_view_found_true in Hview as (e & He & _ & Hfresh).
      rewrite Hcache in He. rewrite Hclock in Hfresh.
      specialize (Hmiss e He). lia.
    + intros c k Hc. by apply elem_of_nil in Hc.
  - destruct (resolveDNS_miss domain nd cached w w1 Hfree1 Hnorm Hview)
      as (a & w' & Hrun & Hmade & _).
    exists (aggregate P a), w', (answer_calls nd a).
    split; [exact Hrun |]. split; [congruence |].
    split; [| split].
    + intros _. split; [apply answer_calls_ops |].
      unfold answer_calls. repeat constructor.
    + intros (e & He & Hfresh). exfalso.
      assert (Hfalse : (cache_view nd w1).2 = false) by (by rewrite Hview).
      apply cache_view_found_false in Hfalse as [Hnone | (e' & He' & Hexpired)];
        rewrite Hcache in *; rewrite ?Hclock in *; [congruence |].
      assert (e' = e) by congruence. subst e'. lia.
    + intros c k. apply aggregate_absent.
Qed.

(** C6. On a miss (the cache has no entry for the normalized domain, or one
    whose expiry is earlier than the clock) resolveDNS, called with the
    mutex free, makes the five lookups and returns a record set that the
    cache of the world it returns in holds for the normalized domain, with
    the expiry ten minutes after the clock reading at the store.  This is
    so whichever lookups failed: when all five failed the record set
    returned and stored is the empty one. *)
Theorem resolveDNS_miss_caches (domain nd : string) (w w1 : World) :
  cacheMutex w = false ->
  run P (normalizeDomain P domain) w = Returned nd w1 ->
  (forall e : CacheEntry, dnsCache w !! nd = Some e -> expiry e < clock w) ->
  exists (rs : RecordSet) (w' : World) (made : list Call),
    run P (resolveDNS P domain) w = Returned rs w' /\
    dnsCache w' !! nd
    = Some {| records := rs; expiry := time.Add (clock w') (10 * time.Minute) |} /\
    calls w' = (calls w ++ made)%list /\
    map call_op made = resolve_ops /\
    ((forall c : Call, c ∈ made -> call_err c <> None) -> rs = ∅).
Proof.
  intros Hfree Hnorm Hmiss.
  destruct (normalizeDomain_frame _ _ _ _ Hnorm) as (Hcache & Hmutex & Hclock & Hcalls & _).
  assert (Hfree1 : cacheMutex w1 = false) by congruence.
  assert (Hview : (cache_view nd w1).2 = false).
  { apply cache_view_found_false. rewrite Hcache, Hclock.
    destruct (dnsCache w !! nd) as [e |] eqn:He; [right | by left].
    exists e. split; [reflexivity | by apply Hmiss]. }
  destruct (cache_view nd w1) as [cached found] eqn:Hcv. simpl in Hview. subst found.
  destruct (resolveDNS_miss domain nd cached w w1 Hfree1 Hnorm Hcv)
    as (a & w' & Hrun & Hmade & Hstored & _).
  exists (aggregate P a), w', (answer_calls nd a).
  split; [exact Hrun |].
  split; [rewrite Hstored; apply lookup_insert_eq |].
  split; [congruence |].
  split; [apply answer_calls_ops |].
  apply aggregate_all_failed.
Qed.

End Resolver.

Lemma resolveDNS_cache_hit_witness :
  cacheMutex (demo.cached_until 100 50) = false /\
  run demo.platform (normalizeDomain demo.platform "example.com") (demo.cached_until 100 50)
  = Returned "example.com" (demo.cached_until 100 50) /\
  dnsCache (demo.cached_until 100 50) !! "example.com"
  = Some {| records := demo.entry_A; expiry := 100 |} /\
  50 <= 100 /\
  exists w' : World,
    run demo.platform (resolveDNS demo.platform "example.com") (demo.cached_until 100 50)
    = Returned demo.entry_A w' /\
    calls w' = [].
Proof.
  split; [reflexivity |]. split; [reflexivity |]. split; [reflexivity |]. split; [lia |].
  destruct (resolveDNS_cache_hit demo.platform "example.com" "example.com"
              {| records := demo.entry_A; expiry := 100 |}
              (demo.cached_until 100 50) (demo.cached_until 100 50)
              eq_refl eq_refl eq_refl ltac:(simpl; lia))
    as (w' & Hrun & Hcalls & _).
  exists w'. split; [exact Hrun | exact Hcalls].
Defined.

Lemma resolveDNS_partial_failure_witness :
  cacheMutex demo.start = false /\
  run demo.platform (normalizeDomain demo.platform "example.com") demo.start
  = Returned "example.com" demo.start /\
  exists (rs : RecordSet) (w' : World) (made : list Call),
    run demo.platform (resolveDNS demo.platform "example.com") demo.start = Returned rs w' /\
    calls w' = (calls demo.start ++ made)%list /\
    map call_op made = resolve_ops /\
    Forall (fun c => call_arg c = "example.com") made /\
    (forall (c : Call) (k : string),
       c ∈ made -> call_err c <> None -> k ∈ keys_of (call_op c) -> rs !! k = None).
Proof.
  split; [reflexivity |]. split; [reflexivity |].
  destruct (resolveDNS_partial_failure demo.platform "example.com" "example.com"
              demo.start demo.start eq_refl eq_refl)
    as (rs & w' & made & Hrun & Hcalls & Hmiss & _ & Habsent).
  destruct Hmiss as [Hops Hargs].
  { intros e He. vm_compute in He. discriminate He. }
  exists rs, w', made. repeat split; assumption.
Defined.

Lemma resolveDNS_miss_caches_witness :
  cacheMutex (demo.cached_until 100 200) = false /\
  run demo.platform (normalizeDomain demo.platform "example.com") (demo.cached_until 100 200)
  = Returned "example.com" (demo.cached_until 100 200) /\
  (forall e : CacheEntry,
     dnsCache (demo.cached_until 100 200) !! "example.com" = Some e -> expiry e < 200) /\
  exists (rs : RecordSet) (w' : World),
    run demo.platform (resolveDNS demo.platform "example.com") (demo.cached_until 100 200)
    = Returned rs w' /\
    dnsCache w' !! "example.com"
    = Some {| records := rs; expiry := time.Add (clock w') (10 * time.Minute) |}.
Proof.
  assert (Hexpired : forall e : CacheEntry,
            dnsCache (demo.cached_until 100 200) !! "example.com" = Some e -> expiry e < 200).
  { intros e He. vm_compute in He. injection He as <-. simpl. lia. }
  split; [reflexivity |]. split; [reflexivity |]. split; [exact Hexpired |].
  destruct (resolveDNS_miss_caches demo.platform "example.com" "example.com"
              (demo.cached_until 100 200) (demo.cached_until 100 200)
              eq_refl eq_refl Hexpired)
    as (rs & w' & made & Hrun & Hstored & _).
  exists rs, w'. split; [exact Hrun | exact Hstored].
Defined.

(** On a miss, every key of the returned record set belongs to a lookup
    that succeeded, and no key but TXT holds an empty list; TXT holds what
    its lookup returned. *)
Lemma resolveDNS_present_keys (P : Platform) (domain nd : string) (w w1 : World) :
  cacheMutex w = false ->
  run P (normalizeDomain P domain) w = Returned nd w1 ->
  (cache_view nd w1).2 = false ->
  exists (rs : RecordSet) (w' : World) (made : list Call),
    run P (resolveDNS P domain) w = Returned rs w' /\
    calls w' = (calls w ++ made)%list /\
    (forall (k : string) (vs : list string),
       rs !! k = Some vs ->
       exists c : Call,
         c ∈ made /\ call_err c = None /\ k ∈ keys_of (call_op c) /\
         (k <> "TXT" -> vs <> [])).
Proof.
  intros Hfree Hnorm Hview.
  destruct (normalizeDomain_frame P _ _ _ _ Hnorm) as (_ & Hmutex & _ & Hcalls & _).
  destruct (cache_view nd w1) as [cached found] eqn:Hcv. simpl in Hview. subst found.
  destruct (resolveDNS_miss P domain nd cached w w1 ltac:(congruence) Hnorm Hcv)
    as (a & w' & Hrun & Hmade & _).
  exists (aggregate P a), w', (answer_calls nd a).
  split; [exact Hrun |]. split; [congruence |].
  intros k vs. apply aggregate_present.
Qed.

(** C2 (the code departs from it).  With a TXT lookup that succeeds and
    returns no record, and the cache empty, resolveDNS returns a record set
    in which the key TXT is present and mapped to the empty list. *)
Example resolveDNS_txt_empty_list :
  net_LookupTXT demo.platform 0 "example.com" = (([], None), 2 * time.Millisecond) /\
  match run demo.platform (resolveDNS demo.platform "example.com") demo.start with
  | Returned rs _ => rs !! "TXT" = Some []
  | _ => False
  end.
Proof. split; [reflexivity | vm_compute; reflexivity]. Qed.

(** ** The batch mode and main *)

Section BatchAndMain.
Variable P : Platform.

(** C8. When opening the batch file fails, resolveBatch ends the process
    with exit status 1, under every schedule: it does not return to its
    caller.  Nothing of a resolution has happened by then: no resolver
    invocation, nothing printed, no WaitGroup count taken, the cache
    untouched; the error has been logged. *)
Theorem resolveBatch_open_failure (sched : list nat) (filePath : string) (err : error)
    (w : World) :
  (os_Open P filePath).2 = Some err ->
  exists w' : World,
    resolveBatch P sched filePath w = Exited 1 w' /\
    calls w' = calls w /\
    stdout w' = stdout w /\
    wg w' = wg w /\
    dnsCache w' = dnsCache w /\
    logged w' = (logged w ++ ["Error reading file: " +:+ err +:+ nl])%list.
Proof.
  intros Hopen. unfold resolveBatch, resolveBatch_launch.
  rewrite run_bind. erewrite run_perform by reflexivity. cbn [and_then].
  destruct (os_Open P filePath) as [file [err' |]]; [| discriminate].
  injection Hopen as ->. eexists. split; [reflexivity |]. repeat split.
Qed.

Lemma forEach_println_run (lines : list string) (w : World) :
  exists w' : World,
    run P (forEach lines (fun line => fmt.Println (" - " +:+ line))) w = Returned tt w' /\
    same_but_output w w'.
Proof.
  revert w. induction lines as [| line lines IH]; intros w.
  - exists w. split; [reflexivity | apply same_but_output_refl].
  - destruct (IH (add_stdout ((" - " +:+ line) +:+ nl) w)) as (w' & Hrun & Hsame).
    exists w'. split; [exact Hrun |].
    destruct Hsame as (? & ? & ? & ? & ?). repeat split; assumption.
Qed.

(** reverseDNS returns after exactly one resolver invocation, LookupAddr on
    its argument. *)
Lemma reverseDNS_run (ip : string) (w : World) :
  exists (w' : World) (c : Call),
    run P (reverseDNS ip) w = Returned tt w' /\
    calls w' = (calls w ++ [c])%list /\
    call_op c = OpLookupAddr /\ call_arg c = ip.
Proof.
  unfold reverseDNS.
  rewrite run_bind. erewrite run_perform by reflexivity. cbn [and_then lookup_step].
  destruct (net_LookupAddr P (clock w) ip) as [[hosts [err |]] d]; cbn [fst snd].
  - eexists _, _. split; [reflexivity |]. repeat split.
  - rewrite run_bind. unfold fmt.Println at 1.
    erewrite run_perform by reflexivity. cbn [and_then].
    match goal with
    | |- context [run P (forEach hosts ?body) ?w0] =>
        destruct (forEach_println_run hosts w0) as (w' & Hrun & (_ & _ & _ & Hcalls & _))
    end.
    exists w', {| call_op := OpLookupAddr; call_arg := ip; call_err := None |}.
    split; [exact Hrun |]. rewrite Hcalls. repeat split.
Qed.

(** C9, amended.  For an argument list with a first argument that holds a
    colon and no dot, main is: initLogger, then reverseDNS on that
    argument; and that reverseDNS makes one resolver invocation, LookupAddr
    on the argument. *)
Theorem main_reverse_dispatch (sched : list nat) (Args : list string) (w : World) :
  (2 <= length Args)%nat ->
  strings.Contains (nth 1 Args EmptyString) ":" = true ->
  strings.Contains (nth 1 Args EmptyString) "." = false ->
  main P sched Args w
  = and_then (run P initLogger w)
      (fun _ w1 => run P (reverseDNS (nth 1 Args EmptyString)) w1) /\
  (forall w1 : World, exists (w' : World) (c : Call),
     run P (reverseDNS (nth 1 Args EmptyString)) w1 = Returned tt w' /\
     calls w' = (calls w1 ++ [c])%list /\
     call_op c = OpLookupAddr /\ call_arg c = nth 1 Args EmptyString).
Proof.
  intros Hlen Hcolon Hdot. split; [| intros w1; apply reverseDNS_run].
  unfold main. rewrite Hdot, Hcolon.
  destruct (Nat.ltb_spec (length Args) 2); [lia | reflexivity].
Qed.

End BatchAndMain.

Lemma resolveBatch_open_failure_witness :
  (os_Open demo.platform "missing.txt").2 = Some "open: no such file or directory" /\
  exists w' : World,
    resolveBatch demo.platform [0; 1]%nat "missing.txt" demo.start = Exited 1 w' /\
    calls w' = [].
Proof.
  split; [reflexivity |].
  destruct (resolveBatch_open_failure demo.platform [0; 1]%nat "missing.txt"
              "open: no such file or directory" demo.start eq_refl)
    as (w' & Hrun & Hcalls & _).
  exists w'. split; [exact Hrun | exact Hcalls].
Defined.

(** C9 as the specification words it fails: the argument below holds a
    colon, and main sends it to resolveDNS (the five forward lookups), not
    to reverseDNS. *)
Lemma main_colon_and_dot_is_forward :
  strings.Contains demo.mapped_ip ":" = true /\
  main demo.platform [] ["dns"; demo.mapped_ip] demo.start
  <> and_then (run demo.platform initLogger demo.start)
       (fun _ w1 => run demo.platform (reverseDNS demo.mapped_ip) w1) /\
  match main demo.platform [] ["dns"; demo.mapped_ip] demo.start with
  | Returned _ w' => map call_op (calls w') = resolve_ops
  | _ => False
  end.
Proof.
  split; [reflexivity |]. split; [| vm_compute; reflexivity].
  intros Heq.
  apply (f_equal (fun o : Outcome unit =>
                    match o with
                    | Returned _ w' => map call_op (calls w')
                    | _ => []
                    end)) in Heq.
  vm_compute in Heq. discriminate Heq.
Qed.

Lemma main_reverse_dispatch_witness :
  (2 <= length ["dns"; "2606:4700:4700::1111"])%nat /\
  strings.Contains "2606:4700:4700::1111" ":" = true /\
  strings.Contains "2606:4700:4700::1111" "." = false /\
  main demo.platform [] ["dns"; "2606:4700:4700::1111"] demo.start
  = and_then (run demo.platform initLogger demo.start)
      (fun _ w1 => run demo.platform (reverseDNS "2606:4700:4700::1111") w1).
Proof.
  split; [simpl; lia |]. split; [reflexivity |]. split; [reflexivity |].
  exact (proj1 (main_reverse_dispatch demo.platform [] ["dns"; "2606:4700:4700::1111"]
                  demo.start ltac:(simpl; lia) eq_refl eq_refl)).
Defined.

(** ** Examples on the concrete platform *)

(** Resolving a name twice: the second call is answered from the cache, so
    the resolver has been invoked five times in all. *)
Example resolve_twice :
  match run demo.platform
          (first ← resolveDNS demo.platform "example.com";
           second ← resolveDNS demo.platform "example.com";
           mret (first, second)) demo.start with
  | Returned (first, second) w =>
      first = second /\ map call_op (calls w) = resolve_ops /\
      stdout w = ["Cache hit!" +:+ nl]
  | _ => False
  end.
Proof. vm_compute. repeat split. Qed.

(** The batch mode on a file of two names: with the workers taking turns
    it returns after ten resolver invocations, the WaitGroup back at zero;
    a schedule that ends too early leaves the caller waiting. *)
Example batch_two_workers :
  match resolveBatch demo.platform (demo.taking_turns 40) "domains.txt" demo.start with
  | Returned _ w => wg w = 0 /\ length (calls w) = 10%nat /\ cacheMutex w = false
  | _ => False
  end.
Proof. vm_compute. repeat split. Qed.

Example batch_still_waiting :
  match resolveBatch demo.platform (demo.taking_turns 5) "domains.txt" demo.start with
  | Blocked w => wg w = 2
  | _ => False
  end.
Proof. vm_compute. reflexivity. Qed.

(** The same name twice in the file: workers that take turns both miss the
    cache and both do the five lookups; one after the other, the second is
    a cache hit. *)
Example batch_same_name_interleaved :
  match resolveBatch demo.platform (demo.taking_turns 40) "twice.txt" demo.start with
  | Returned _ w => length (calls w) = 10%nat
  | _ => False
  end.
Proof. vm_compute. reflexivity. Qed.

Example batch_same_name_in_a_row :
  match resolveBatch demo.platform (demo.in_a_row 40) "twice.txt" demo.start with
  | Returned _ w => length (calls w) = 5%nat
  | _ => False
  end.
Proof. vm_compute. reflexivity. Qed.

(** * Further properties of the program *)

(** ** The exact effect of a resolution that misses the cache *)

Lemma World_eq (w w' : World) :
  dnsCache w = dnsCache w' -> cacheMutex w = cacheMutex w' -> clock w = clock w' ->
  stdout w = stdout w' -> logOutput w = logOutput w' -> logged w = logged w' ->
  calls w = calls w' -> wg w = wg w' -> w = w'.
Proof. destruct w, w'; simpl; intros; subst; reflexivity. Qed.

Section MissExact.
Variable P : Platform.

Lemma clock_of_log_error msg err w : clock (log_error msg err w) = clock w.
Proof. destruct err; reflexivity. Qed.
Lemma calls_of_log_error msg err w : calls (log_error msg err w) = calls w.
Proof. destruct err; reflexivity. Qed.
Lemma dnsCache_of_log_error msg err w : dnsCache (log_error msg err w) = dnsCache w.
Proof. destruct err; reflexivity. Qed.
Lemma cacheMutex_of_log_error msg err w : cacheMutex (log_error msg err w) = cacheMutex w.
Proof. destruct err; reflexivity. Qed.
Lemma stdout_of_log_error msg err w : stdout (log_error msg err w) = stdout w.
Proof. destruct err; reflexivity. Qed.
Lemma logOutput_of_log_error msg err w : logOutput (log_error msg err w) = logOutput w.
Proof. destruct err; reflexivity. Qed.
Lemma wg_of_log_error msg err w : wg (log_error msg err w) = wg w.
Proof. destruct err; reflexivity. Qed.
Lemma logged_of_log_error prefix err w :
  logged (log_error (fun e => prefix +:+ e +:+ nl) err w)
  = (logged w ++ failure_line prefix err)%list.
Proof. destruct err; simpl; [reflexivity | by rewrite app_nil_r]. Qed.

Lemma clock_of_add_call c d w : clock (add_call c d w) = time.Add (clock w) d.
Proof. reflexivity. Qed.
Lemma calls_of_add_call c d w : calls (add_call c d w) = (calls w ++ [c])%list.
Proof. reflexivity. Qed.
Lemma dnsCache_of_add_call c d w : dnsCache (add_call c d w) = dnsCache w.
Proof. reflexivity. Qed.
Lemma cacheMutex_of_add_call c d w : cacheMutex (add_call c d w) = cacheMutex w.
Proof. reflexivity. Qed.
Lemma stdout_of_add_call c d w : stdout (add_call c d w) = stdout w.
Proof. reflexivity. Qed.
Lemma logOutput_of_add_call c d w : logOutput (add_call c d w) = logOutput w.
Proof. reflexivity. Qed.
Lemma wg_of_add_call c d w : wg (add_call c d w) = wg w.
Proof. reflexivity. Qed.
Lemma logged_of_add_call c d w : logged (add_call c d w) = logged w.
Proof. reflexivity. Qed.

Create Rewrite HintDb fields.
#[local] Hint Rewrite clock_of_log_error calls_of_log_error dnsCache_of_log_error
  cacheMutex_of_log_error stdout_of_log_error logOutput_of_log_error wg_of_log_error
  logged_of_log_error clock_of_add_call calls_of_add_call dnsCache_of_add_call
  cacheMutex_of_add_call stdout_of_add_call logOutput_of_add_call wg_of_add_call
  logged_of_add_call : fields.

(** One lookup block, with the clock readings kept in the form that
    [observe] gives them. *)
Ltac observed_block f v err dur :=
  rewrite run_bind; erewrite run_perform by reflexivity;
  cbn [and_then lookup_step]; autorewrite with fields;
  match goal with
  | |- context [f P ?t ?n] => destruct (f P t n) as [[v err] dur]
  end;
  cbn [fst snd]; rewrite run_fallible.

Lemma resolveDNS_miss_exact (domain nd : string) (cached : RecordSet) (w w1 : World) :
  cacheMutex w1 = false ->
  run P (normalizeDomain P domain) w = Returned nd w1 ->
  cache_view nd w1 = (cached, false) ->
  run P (resolveDNS P domain) w
  = Returned (aggregate P (observe P nd (clock w1)).1)
      {| dnsCache :=
           <[nd := {| records := aggregate P (observe P nd (clock w1)).1;
                      expiry := time.Add (observe P nd (clock w1)).2 (10 * time.Minute) |}]>
             (dnsCache w1);
         cacheMutex := false;
         clock := (observe P nd (clock w1)).2;
         stdout := stdout w1;
         logOutput := logOutput w1;
         logged := (logged w1 ++ failure_lines (observe P nd (clock w1)).1)%list;
         calls := (calls w1 ++ answer_calls nd (observe P nd (clock w1)).1)%list;
         wg := wg w1 |}.
Proof.
  intros Hfree Hnorm Hview. unfold resolveDNS, observe. cbv zeta. cbn [fst snd].
  rewrite run_bind, Hnorm. cbn [and_then].
  rewrite run_bind, getCachedResult_run, Hview by assumption.
  cbn [and_then].
  observed_block net_LookupIP ips e1 d1.
  observed_block net_LookupCNAME cname e2 d2.
  observed_block net_LookupMX mxs e3 d3.
  observed_block net_LookupTXT txts e4 d4.
  observed_block net_LookupNS nss e5 d5.
  rewrite run_bind, cacheResult_run by (autorewrite with fields; assumption).
  cbn [and_then run mret Prog_ret].
  f_equal.
  apply World_eq; cbn [set_cache dnsCache cacheMutex clock stdout logOutput logged calls wg];
    autorewrite with fields; try reflexivity; try assumption.
  - unfold failure_lines. cbn [ans_ip ans_cname ans_mx ans_txt ans_ns fst snd].
    rewrite <- !app_assoc. reflexivity.
  - unfold answer_calls. cbn [ans_ip ans_cname ans_mx ans_txt ans_ns fst snd].
    rewrite <- !app_assoc. reflexivity.
Qed.

End MissExact.

(** ** What a resolution puts under each key *)

Section RecordValues.
Variable P : Platform.

Ltac not_this_key :=
  first [left; assumption | right; repeat split; first [discriminate | assumption]].

(** A loop of [append]s on one key adds the rendered elements in order. *)
Lemma fold_append_at {A : Type} (f : RecordSet -> A -> RecordSet) (g : A -> string)
    (key : string) :
  (forall rs x, f rs x = append_at key (g x) rs) ->
  forall (l : list A) (rs : RecordSet),
    fold_left f l rs !! key
    = match l with
      | [] => rs !! key
      | _ :: _ => Some (default [] (rs !! key) ++ map g l)%list
      end.
Proof.
  intros Hf l. induction l as [| x l IH]; intros rs; [reflexivity |].
  cbn [fold_left]. rewrite IH, Hf. unfold append_at. rewrite lookup_insert_eq.
  destruct l; cbn [default map]; [reflexivity |].
  unfold id. by rewrite <- app_assoc.
Qed.

Lemma fold_add_ip_v4 (ips : list IP) (rs : RecordSet) :
  fold_left (add_ip P) ips rs !! "A"
  = match List.filter is_v4 ips with
    | [] => rs !! "A"
    | l => Some (default [] (rs !! "A") ++ map (IP_String P) l)%list
    end.
Proof.
  revert rs. induction ips as [| ip ips IH]; intros rs; [reflexivity |].
  cbn [fold_left List.filter]. rewrite IH. unfold add_ip, is_v4.
  destruct (net.To4 ip).
  - unfold append_at. rewrite lookup_insert_eq.
    destruct (List.filter _ ips); cbn [default map]; [reflexivity |].
    unfold id. by rewrite <- app_assoc.
  - rewrite append_at_other by discriminate. reflexivity.
Qed.

Lemma fold_add_ip_v6 (ips : list IP) (rs : RecordSet) :
  fold_left (add_ip P) ips rs !! "AAAA"
  = match List.filter (fun ip => negb (is_v4 ip)) ips with
    | [] => rs !! "AAAA"
    | l => Some (default [] (rs !! "AAAA") ++ map (IP_String P) l)%list
    end.
Proof.
  revert rs. induction ips as [| ip ips IH]; intros rs; [reflexivity |].
  cbn [fold_left List.filter]. rewrite IH. unfold add_ip, is_v4.
  destruct (net.To4 ip); cbn [negb].
  - rewrite append_at_other by discriminate. reflexivity.
  - unfold append_at. rewrite lookup_insert_eq.
    destruct (List.filter _ ips); cbn [default map]; [reflexivity |].
    unfold id. by rewrite <- app_assoc.
Qed.

(** A miss, read off the world in which resolveDNS is called. *)
Lemma miss_view (domain nd : string) (w w1 : World) :
  run P (normalizeDomain P domain) w = Returned nd w1 ->
  (forall e : CacheEntry, dnsCache w !! nd = Some e -> expiry e < clock w) ->
  cache_view nd w1 = (∅, false).
Proof.
  intros Hnorm Hmiss.
  destruct (normalizeDomain_frame P _ _ _ _ Hnorm) as (Hcache & _ & Hclock & _).
  unfold cache_view, time.After. rewrite Hcache, Hclock.
  destruct (dnsCache w !! nd) as [e |] eqn:He; [| reflexivity].
  specialize (Hmiss e eq_refl).
  destruct (Z.ltb_spec (expiry e) (clock w)); [reflexivity | lia].
Qed.

Lemma resolveDNS_on_miss (domain nd : string) (w w1 : World) :
  cacheMutex w = false ->
  run P (normalizeDomain P domain) w = Returned nd w1 ->
  (forall e : CacheEntry, dnsCache w !! nd = Some e -> expiry e < clock w) ->
  exists w' : World,
    run P (resolveDNS P domain) w = Returned (aggregate P (observe P nd (clock w)).1) w' /\
    logged w' = (logged w1 ++ failure_lines (observe P nd (clock w)).1)%list /\
    stdout w' = stdout w /\
    calls w' = (calls w ++ answer_calls nd (observe P nd (clock w)).1)%list.
Proof.
  intros Hfree Hnorm Hmiss.
  pose proof (miss_view _ _ _ _ Hnorm Hmiss) as Hview.
  destruct (normalizeDomain_frame P _ _ _ _ Hnorm) as (_ & Hmutex & Hclock & Hcalls & _).
  rewrite (resolveDNS_miss_exact P domain nd ∅ w w1) by (congruence || assumption).
  rewrite Hclock, Hcalls. eexists. split; [reflexivity |]. cbn.
  repeat split.
  unfold normalizeDomain in Hnorm.
  destruct (idna_ToASCII P domain) as [normalized [err |]];
    cbn in Hnorm; injection Hnorm as _ <-; reflexivity.
Qed.

(** X1. On a miss with a successful address lookup, the key A holds the
    text of the IPv4 addresses and the key AAAA that of the others, each in
    the order the resolver returned them; a key whose list would be empty
    is absent.  The first lookup is made at the clock reading of the
    call. *)
Theorem resolveDNS_address_records (domain nd : string) (w w1 : World) (ips : list IP) :
  cacheMutex w = false ->
  run P (normalizeDomain P domain) w = Returned nd w1 ->
  (forall e : CacheEntry, dnsCache w !! nd = Some e -> expiry e < clock w) ->
  (net_LookupIP P (clock w) nd).1 = (ips, None) ->
  exists (rs : RecordSet) (w' : World),
    run P (resolveDNS P domain) w = Returned rs w' /\
    rs !! "A" = filled (map (IP_String P) (List.filter is_v4 ips)) /\
    rs !! "AAAA" = filled (map (IP_String P) (List.filter (fun ip => negb (is_v4 ip)) ips)).
Proof.
  intros Hfree Hnorm Hmiss Hip.
  destruct (resolveDNS_on_miss domain nd w w1 Hfree Hnorm Hmiss) as (w' & Hrun & _).
  eexists _, w'. split; [exact Hrun |].
  unfold aggregate.
  rewrite !merge_ns_keeps, !merge_txt_keeps, !merge_mx_keeps, !merge_cname_keeps
    by not_this_key.
  unfold merge_ip, observe. cbn [ans_ip fst snd]. rewrite Hip. cbn [fst snd].
  rewrite fold_add_ip_v4, fold_add_ip_v6, !lookup_empty.
  split; match goal with |- context [List.filter ?f ips] => destruct (List.filter f ips) end;
    reflexivity.
Qed.

(** X2. On a miss, a successful CNAME lookup puts the one name it returned
    under CNAME, and a successful TXT lookup puts the list it returned
    under TXT as it is. *)
Theorem resolveDNS_cname_txt_records (domain nd : string) (w w1 : World) :
  cacheMutex w = false ->
  run P (normalizeDomain P domain) w = Returned nd w1 ->
  (forall e : CacheEntry, dnsCache w !! nd = Some e -> expiry e < clock w) ->
  exists (rs : RecordSet) (w' : World),
    run P (resolveDNS P domain) w = Returned rs w' /\
    (forall cname : string,
       ans_cname (observe P nd (clock w)).1 = (cname, None) -> rs !! "CNAME" = Some [cname]) /\
    (forall txts : list string,
       ans_txt (observe P nd (clock w)).1 = (txts, None) -> rs !! "TXT" = Some txts).
Proof.
  intros Hfree Hnorm Hmiss.
  destruct (resolveDNS_on_miss domain nd w w1 Hfree Hnorm Hmiss) as (w' & Hrun & _).
  eexists _, w'. split; [exact Hrun |].
  unfold aggregate. split.
  - intros cname Hans.
    rewrite merge_ns_keeps, merge_txt_keeps, merge_mx_keeps by not_this_key.
    unfold merge_cname. rewrite Hans. apply lookup_insert_eq.
  - intros txts Hans.
    rewrite merge_ns_keeps by not_this_key.
    unfold merge_txt. rewrite Hans. apply lookup_insert_eq.
Qed.

(** X3. On a miss, a successful MX lookup puts under MX one text per record,
    host and preference in the form [host (Priority: n)], in the order
    returned; a successful NS lookup puts the hosts under NS in the order
    returned.  With no record returned the key is absent. *)
Theorem resolveDNS_mx_ns_records (domain nd : string) (w w1 : World) :
  cacheMutex w = false ->
  run P (normalizeDomain P domain) w = Returned nd w1 ->
  (forall e : CacheEntry, dnsCache w !! nd = Some e -> expiry e < clock w) ->
  exists (rs : RecordSet) (w' : World),
    run P (resolveDNS P domain) w = Returned rs w' /\
    (forall mxs : list net.MX,
       ans_mx (observe P nd (clock w)).1 = (mxs, None) ->
       rs !! "MX" = filled (map render_mx mxs)) /\
    (forall nss : list net.NS,
       ans_ns (observe P nd (clock w)).1 = (nss, None) ->
       rs !! "NS" = filled (map net.NS_Host nss)).
Proof.
  intros Hfree Hnorm Hmiss.
  destruct (resolveDNS_on_miss domain nd w w1 Hfree Hnorm Hmiss) as (w' & Hrun & _).
  eexists _, w'. split; [exact Hrun |].
  unfold aggregate. split.
  - intros mxs Hans.
    rewrite merge_ns_keeps, merge_txt_keeps by not_this_key.
    unfold merge_mx. rewrite Hans. cbn [fst snd].
    rewrite (fold_append_at add_mx render_mx "MX") by reflexivity.
    rewrite merge_cname_keeps, merge_ip_keeps, lookup_empty by not_this_key.
    destruct mxs; reflexivity.
  - intros nss Hans.
    unfold merge_ns. rewrite Hans. cbn [fst snd].
    rewrite (fold_append_at add_ns net.NS_Host "NS") by reflexivity.
    rewrite merge_txt_keeps, merge_mx_keeps, merge_cname_keeps, merge_ip_keeps,
      lookup_empty by not_this_key.
    destruct nss; reflexivity.
Qed.

(** X4. On a miss, resolveDNS hands the logger one line for every lookup
    that failed, in the order of the lookups and after whatever
    normalizeDomain logged, and prints nothing. *)
Theorem resolveDNS_failure_log (domain nd : string) (w w1 : World) :
  cacheMutex w = false ->
  run P (normalizeDomain P domain) w = Returned nd w1 ->
  (forall e : CacheEntry, dnsCache w !! nd = Some e -> expiry e < clock w) ->
  exists (rs : RecordSet) (w' : World),
    run P (resolveDNS P domain) w = Returned rs w' /\
    logged w' = (logged w1 ++ failure_lines (observe P nd (clock w)).1)%list /\
    stdout w' = stdout w.
Proof.
  intros Hfree Hnorm Hmiss.
  destruct (resolveDNS_on_miss domain nd w w1 Hfree Hnorm Hmiss)
    as (w' & Hrun & Hlog & Hout & _).
  eexists _, w'. repeat split; eassumption.
Qed.

(** X22. On a miss, every key of the record set that resolveDNS returns
    is a key of a lookup that this call made and that succeeded, and every
    key other than TXT holds a list with at least one value. *)
Theorem resolveDNS_keys_from_lookups (domain nd : string) (w w1 : World) :
  cacheMutex w = false ->
  run P (normalizeDomain P domain) w = Returned nd w1 ->
  (forall e : CacheEntry, dnsCache w !! nd = Some e -> expiry e < clock w) ->
  exists (rs : RecordSet) (w' : World) (made : list Call),
    run P (resolveDNS P domain) w = Returned rs w' /\
    calls w' = (calls w ++ made)%list /\
    forall (k : string) (vs : list string),
      rs !! k = Some vs ->
      (exists c : Call, c ∈ made /\ call_err c = None /\ k ∈ keys_of (call_op c)) /\
      (k <> "TXT" -> vs <> []).
Proof.
  intros Hfree Hnorm Hmiss.
  destruct (resolveDNS_on_miss domain nd w w1 Hfree Hnorm Hmiss)
    as (w' & Hrun & _ & _ & Hcalls).
  eexists _, w', _. split; [exact Hrun |]. split; [exact Hcalls |].
  intros k vs Hk.
  destruct (aggregate_present P nd _ k vs Hk) as (c & Hc & Herr & Hkey & Hnonempty).
  split; [exists c; repeat split; assumption | exact Hnonempty].
Qed.

End RecordValues.

(** ** The cache over time, and what a resolution leaves alone *)

Section CacheOverTime.
Variable P : Platform.

(** X5. An entry stored by cacheResult is served by getCachedResult, with
    the record set that was stored, as long as the clock is no later than
    ten minutes after the clock reading of the store and no other store for
    the domain has come in between; later than that it is reported as not
    found. *)
Theorem cacheResult_then_getCachedResult (domain : string) (rs : RecordSet)
    (w w1 w2 : World) :
  cacheMutex w = false ->
  run P (cacheResult domain rs) w = Returned tt w1 ->
  no_put_since P domain w1 w2 ->
  cacheMutex w2 = false ->
  run P (getCachedResult domain) w2
  = Returned (if clock w2 <=? clock w + 10 * time.Minute then (rs, true) else (∅, false)) w2.
Proof.
  intros Hfree Hput Hsince Hfree2.
  rewrite (cacheResult_run P domain rs w Hfree) in Hput. injection Hput as <-.
  rewrite (getCachedResult_run P domain w2 Hfree2).
  unfold cache_view. rewrite (no_put_since_entry P _ _ _ Hsince). cbn [dnsCache set_cache].
  rewrite lookup_insert_eq. cbn [expiry records]. unfold time.After, time.Add.
  destruct (Z.ltb_spec (clock w + 10 * time.Minute) (clock w2)),
           (Z.leb_spec (clock w2) (clock w + 10 * time.Minute)); (reflexivity || lia).
Qed.

(** X6. resolveDNS, called with the mutex free, returns with the mutex
    free, and the only cache entry it can have changed is the one of the
    normalized domain; the WaitGroup counter is as it was. *)
Theorem resolveDNS_keeps_other_entries (domain nd : string) (w w1 : World) :
  cacheMutex w = false ->
  run P (normalizeDomain P domain) w = Returned nd w1 ->
  exists (rs : RecordSet) (w' : World),
    run P (resolveDNS P domain) w = Returned rs w' /\
    cacheMutex w' = false /\
    (forall other : string, other <> nd -> dnsCache w' !! other = dnsCache w !! other) /\
    wg w' = wg w.
Proof.
  intros Hfree Hnorm.
  destruct (normalizeDomain_frame P _ _ _ _ Hnorm) as (Hcache & Hmutex & _ & _ & Hwg).
  assert (Hfree1 : cacheMutex w1 = false) by congruence.
  destruct (cache_view nd w1) as [cached [|]] eqn:Hview.
  - eexists _, _. split; [by apply (resolveDNS_hit P domain nd) |].
    cbn. rewrite Hcache. repeat split; assumption.
  - rewrite (resolveDNS_miss_exact P domain nd cached w w1 Hfree1 Hnorm Hview).
    eexists _, _. split; [reflexivity |]. cbn.
    split; [reflexivity |]. split; [| assumption].
    intros other Hne. rewrite lookup_insert_ne by congruence. by rewrite Hcache.
Qed.

(** X7. After a call of resolveDNS the cache holds, for the normalized
    domain, an entry with the record set that was returned; when the call
    missed the cache the entry expires ten minutes after the clock reading
    at the return.  A second call for the same domain, made after any
    amount of time and any activity that stores nothing for that domain, is
    answered with the same record set and without any lookup as long as the
    clock is not past the expiry of that entry; once the clock is past it,
    the second call makes the five lookups afresh. *)
Theorem resolveDNS_twice (domain nd : string) (w w0 : World) :
  cacheMutex w = false ->
  run P (normalizeDomain P domain) w = Returned nd w0 ->
  exists (rs : RecordSet) (w1 : World) (e : CacheEntry),
    run P (resolveDNS P domain) w = Returned rs w1 /\
    cacheMutex w1 = false /\
    dnsCache w1 !! nd = Some e /\ records e = rs /\
    ((forall e0 : CacheEntry, dnsCache w !! nd = Some e0 -> expiry e0 < clock w) ->
     expiry e = time.Add (clock w1) (10 * time.Minute)) /\
    forall w2 : World,
      no_put_since P nd w1 w2 ->
      cacheMutex w2 = false ->
      (clock w2 <= expiry e ->
       exists w3 : World,
         run P (resolveDNS P domain) w2 = Returned rs w3 /\ calls w3 = calls w2) /\
      (expiry e < clock w2 ->
       exists (rs' : RecordSet) (w3 : World) (made : list Call),
         run P (resolveDNS P domain) w2 = Returned rs' w3 /\
         calls w3 = (calls w2 ++ made)%list /\
         map call_op made = resolve_ops).
Proof.
  intros Hfree Hnorm.
  destruct (normalizeDomain_run P domain) as (out & Hout).
  assert (out = nd) as ->.
  { destruct (Hout w) as (w' & Hrun & _). rewrite Hrun in Hnorm. congruence. }
  destruct (normalizeDomain_frame P _ _ _ _ Hnorm) as (Hcache & Hmutex & Hclock & _).
  assert (Hfree0 : cacheMutex w0 = false) by congruence.
  (* the second call, from any world in which the entry is still the same *)
  assert (Hsecond : forall (e : CacheEntry) (w1 w2 : World),
            dnsCache w1 !! nd = Some e ->
            no_put_since P nd w1 w2 -> cacheMutex w2 = false ->
            (clock w2 <= expiry e ->
             exists w3 : World,
               run P (resolveDNS P domain) w2 = Returned (records e) w3 /\
               calls w3 = calls w2) /\
            (expiry e < clock w2 ->
             exists (rs' : RecordSet) (w3 : World) (made : list Call),
               run P (resolveDNS P domain) w2 = Returned rs' w3 /\
               calls w3 = (calls w2 ++ made)%list /\
               map call_op made = resolve_ops)).
  { intros e w1 w2 He Hsince Hfree2.
    destruct (Hout w2) as (w2' & Hnorm2 & (Hc & Hm & Hk & Hcalls2 & _)).
    assert (He2 : dnsCache w2' !! nd = Some e)
      by (rewrite Hc, (no_put_since_entry P _ _ _ Hsince); exact He).
    assert (Hfree2' : cacheMutex w2' = false) by congruence.
    split.
    - intros Hfresh. eexists. split.
      + apply (resolveDNS_hit P domain nd (records e) w2 w2'); [assumption .. |].
        unfold cache_view, time.After. rewrite He2, Hk.
        destruct (Z.ltb_spec (expiry e) (clock w2)); [lia | reflexivity].
      + cbn. exact Hcalls2.
    - intros Hexpired.
      assert (Hview : cache_view nd w2' = (∅, false)).
      { unfold cache_view, time.After. rewrite He2, Hk.
        destruct (Z.ltb_spec (expiry e) (clock w2)); [reflexivity | lia]. }
      destruct (resolveDNS_miss P domain nd ∅ w2 w2' Hfree2' Hnorm2 Hview)
        as (a & w3 & Hrun & Hmade & _).
      exists (aggregate P a), w3, (answer_calls nd a).
      split; [exact Hrun |]. split; [congruence | reflexivity]. }
  destruct (cache_view nd w0) as [cached [|]] eqn:Hview.
  - (* the first call is a hit *)
    pose proof Hview as Hhit.
    apply cache_view_found_true in Hhit as (e & He & Hrecords & Hfresh).
    exists cached, (add_stdout ("Cache hit!" +:+ nl) w0), e.
    split; [by apply (resolveDNS_hit P domain nd) |].
    split; [exact Hfree0 |]. split; [exact He |]. split; [exact Hrecords |].
    split.
    + intros Hmiss. exfalso. rewrite Hcache in He. rewrite Hclock in Hfresh.
      specialize (Hmiss e He). lia.
    + intros w2 Hsince Hfree2. rewrite <- Hrecords.
      apply (Hsecond e (add_stdout ("Cache hit!" +:+ nl) w0) w2); assumption.
  - (* the first call is a miss *)
    rewrite (resolveDNS_miss_exact P domain nd cached w w0 Hfree0 Hnorm Hview).
    match goal with
    | |- exists rs w1 e, Returned ?r ?w' = _ /\ _ =>
        set (stored := {| records := r; expiry := time.Add (clock w') (10 * time.Minute) |});
        assert (Hstored : dnsCache w' !! nd = Some stored)
          by (cbn [dnsCache]; apply lookup_insert_eq);
        exists r, w', stored
    end.
    split; [reflexivity |]. split; [reflexivity |].
    split; [exact Hstored |]. split; [reflexivity |]. split; [intros _; reflexivity |].
    intros w2 Hsince Hfree2.
    exact (Hsecond stored _ w2 Hstored Hsince Hfree2).
Qed.

End CacheOverTime.

(** ** The lock is not held across a lookup *)

Section LockDiscipline.
Variable P : Platform.

Lemma lookups_unlocked_bind {A B : Type} (m : Prog A) (f : A -> Prog B) (w : World) :
  lookups_unlocked P m w ->
  (forall a w', run P m w = Returned a w' -> lookups_unlocked P (f a) w') ->
  lookups_unlocked P (m ≫= f) w.
Proof.
  revert w. induction m as [a | X e k IH]; intros w Hm Hf.
  - apply Hf. reflexivity.
  - change (lookups_unlocked P (Vis e k ≫= f) w) with
      ((is_lookup e = true -> cacheMutex w = false) /\
       match handle P e w with
       | Done x w' => lookups_unlocked P (k x ≫= f) w'
       | _ => True
       end).
    destruct Hm as [Hhere Hrest]. split; [exact Hhere |].
    cbn [run] in Hf.
    destruct (handle P e w) as [x w' | |]; [| exact I ..].
    apply IH; assumption.
Qed.

Lemma lookups_unlocked_perform {X : Type} (e : Eff X) (w : World) :
  (is_lookup e = true -> cacheMutex w = false) -> lookups_unlocked P (perform e) w.
Proof. intros H. split; [exact H |]. destruct (handle P e w); exact I. Qed.

Lemma run_branch (err : option error) (msg : error -> string) (ok keep : RecordSet)
    (w : World) :
  run P (match err with
         | Some e => log.Printf (msg e) ≫= (fun _ => mret keep)
         | None => mret ok
         end) w
  = Returned (match err with Some _ => keep | None => ok end) (log_error msg err w).
Proof. destruct err; reflexivity. Qed.

Lemma lookups_unlocked_branch (err : option error) (msg : error -> string)
    (ok keep : RecordSet) (w : World) :
  lookups_unlocked P (match err with
                      | Some e => log.Printf (msg e) ≫= (fun _ => mret keep)
                      | None => mret ok
                      end) w.
Proof. destruct err; cbn; [split; [discriminate | exact I] | exact I]. Qed.

(** One lookup block: the lookup is made with the mutex free, and the mutex
    is still free after the block. *)
Ltac unlocked_block :=
  apply lookups_unlocked_bind;
  [ apply lookups_unlocked_perform; intros _; assumption
  | let a := fresh "a" in
    let w' := fresh "w" in
    let Hrun := fresh "Hrun" in
    let Hfree := fresh "Hfree" in
    intros a w' Hrun;
    erewrite run_perform in Hrun by reflexivity; cbn [lookup_step] in Hrun;
    injection Hrun as <- <-;
    match goal with
    | |- context [Datatypes.fst ?r] => destruct r as [[? ?] ?]
    end;
    cbn [fst snd];
    apply lookups_unlocked_bind;
    [ apply lookups_unlocked_branch
    | intros a w' Hrun; rewrite run_branch in Hrun; injection Hrun as <- <-;
      match goal with
      | |- lookups_unlocked P _ ?w0 =>
          assert (Hfree : cacheMutex w0 = false)
            by (rewrite cacheMutex_log_error; cbn; assumption)
      end ] ].

(** X8. Along a call of resolveDNS that starts with the mutex free, the
    mutex is free at every invocation of the platform resolver: the lock is
    taken for the cache read and for the cache write only. *)
Theorem resolveDNS_lookups_unlocked (domain : string) (w : World) :
  cacheMutex w = false -> lookups_unlocked P (resolveDNS P domain) w.
Proof.
  intros Hfree. unfold resolveDNS.
  apply lookups_unlocked_bind.
  { unfold normalizeDomain. destruct (idna_ToASCII P domain) as [? [? |]]; cbn;
      [split; [discriminate | exact I] | exact I]. }
  intros nd w1 Hnorm.
  destruct (normalizeDomain_frame P _ _ _ _ Hnorm) as (_ & Hmutex & _).
  assert (Hfree1 : cacheMutex w1 = false) by congruence.
  apply lookups_unlocked_bind.
  { cbn. rewrite Hfree1. split; [discriminate |]. cbn. split; [discriminate |].
    destruct (dnsCache w1 !! nd) as [e |]; cbn.
    - split; [discriminate |].
      destruct (time.After (clock w1) (expiry e)); cbn; (split; [discriminate | exact I]).
    - split; [discriminate | exact I]. }
  intros [cached found] w2 Hget.
  rewrite (getCachedResult_run P nd w1 Hfree1) in Hget. injection Hget as _ <-.
  destruct found.
  { cbn. split; [discriminate | exact I]. }
  unlocked_block. unlocked_block. unlocked_block. unlocked_block. unlocked_block.
  apply lookups_unlocked_bind; [| intros; exact I].
  cbn. match goal with H : cacheMutex _ = false |- _ => rewrite H end.
  cbn. repeat (split; [discriminate |]). exact I.
Qed.

End LockDiscipline.

(** ** What is printed *)

Section Printing.
Variable P : Platform.

Lemma forEach_println_exact (values : list string) (w : World) :
  exists w' : World,
    run P (forEach values (fun value => fmt.Println (" - " +:+ value))) w = Returned tt w' /\
    w' = fold_left (fun w0 value => add_stdout (bullet value) w0) values w.
Proof.
  revert w. induction values as [| value values IH]; intros w.
  - exists w. split; reflexivity.
  - destruct (IH (add_stdout (bullet value) w)) as (w' & Hrun & Hw').
    exists w'. split; [exact Hrun | exact Hw'].
Qed.

Lemma stdout_fold_add (lines : list string) (w : World) :
  stdout (fold_left (fun w0 value => add_stdout (bullet value) w0) lines w)
  = (stdout w ++ map bullet lines)%list.
Proof.
  revert w. induction lines as [| line lines IH]; intros w; cbn [fold_left map].
  - by rewrite app_nil_r.
  - rewrite IH. cbn. by rewrite <- app_assoc.
Qed.

Lemma only_stdout_fold_add (lines : list string) (w : World) :
  only_stdout w (fold_left (fun w0 value => add_stdout (bullet value) w0) lines w).
Proof.
  revert w. induction lines as [| line lines IH]; intros w; cbn [fold_left].
  - repeat split.
  - destruct (IH (add_stdout (bullet line) w)) as (? & ? & ? & ? & ? & ? & ?).
    repeat split; assumption.
Qed.

(** X9. reverseDNS always returns, after one LookupAddr on its argument and
    without touching the cache.  When the lookup fails it logs one line and
    prints nothing; when it succeeds it logs nothing and prints the heading
    and then one line per host name, in the order returned (the heading
    alone for no host name). *)
Theorem reverseDNS_output (ip : string) (w : World) :
  exists w' : World,
    run P (reverseDNS ip) w = Returned tt w' /\
    dnsCache w' = dnsCache w /\
    calls w' = (calls w ++ [ {| call_op := OpLookupAddr; call_arg := ip;
                                call_err := (net_LookupAddr P (clock w) ip).1.2 |} ])%list /\
    match (net_LookupAddr P (clock w) ip).1 with
    | (_, Some err) =>
        stdout w' = stdout w /\
        logged w' = (logged w ++ ["Error during reverse DNS lookup: " +:+ err +:+ nl])%list
    | (hosts, None) =>
        stdout w' = (stdout w ++ ("Reverse DNS:" +:+ nl) :: map bullet hosts)%list /\
        logged w' = logged w
    end.
Proof.
  unfold reverseDNS.
  rewrite run_bind. erewrite run_perform by reflexivity. cbn [and_then lookup_step].
  destruct (net_LookupAddr P (clock w) ip) as [[hosts [err |]] d]; cbn [fst snd].
  - eexists. split; [reflexivity |]. repeat split.
  - rewrite run_bind. unfold fmt.Println at 1.
    erewrite run_perform by reflexivity. cbn [and_then].
    match goal with
    | |- context [run P (forEach hosts ?body) ?w0] =>
        destruct (forEach_println_exact hosts w0) as (w' & Hrun & ->)
    end.
    eexists. split; [exact Hrun |].
    match goal with
    | |- context [fold_left ?f hosts ?w0] =>
        destruct (only_stdout_fold_add hosts w0) as (Hc & _ & _ & _ & Hl & Hk & _)
    end.
    rewrite Hc, Hk, Hl, stdout_fold_add. cbn. rewrite <- app_assoc. repeat split.
Qed.

Lemma forEach_sections (sections : list (string * list string)) (w : World) :
  exists w' : World,
    run P (forEach sections (fun '(recordType, values) =>
             fmt.Printf (recordType +:+ " Records:" +:+ nl);;
             forEach values (fun value => fmt.Println (" - " +:+ value)))) w
    = Returned tt w' /\
    stdout w' = (stdout w ++ (sections ≫= section_lines))%list /\
    only_stdout w w'.
Proof.
  revert w. induction sections as [| [recordType values] sections IH]; intros w.
  - exists w. split; [reflexivity |]. split; [by rewrite app_nil_r | repeat split].
  - cbn [forEach]. rewrite run_bind, run_bind.
    unfold fmt.Printf at 1. erewrite run_perform by reflexivity. cbn [and_then].
    match goal with
    | |- context [run P (forEach values ?body) ?w0] =>
        destruct (forEach_println_exact values w0) as (w1 & Hrun1 & Hw1)
    end.
    rewrite Hrun1. cbn [and_then].
    destruct (IH w1) as (w' & Hrun & Hout & Hsame).
    exists w'. split; [exact Hrun |].
    pose proof (only_stdout_fold_add values
                  (add_stdout (recordType +:+ " Records:" +:+ nl) w)) as Hsame1.
    rewrite <- Hw1 in Hsame1.
    split.
    + rewrite Hout, Hw1, stdout_fold_add. cbn. rewrite <- !app_assoc. reflexivity.
    + unfold only_stdout in *. cbn in Hsame1.
      destruct Hsame as (? & ? & ? & ? & ? & ? & ?).
      destruct Hsame1 as (? & ? & ? & ? & ? & ? & ?).
      repeat split; congruence.
Qed.

(** X10. printRecords always returns and changes nothing but standard
    output.  It prints the heading with the domain and then one section
    per entry of the record set, the entries in the order the runtime walks
    the map (each entry once, in no order fixed beforehand); a section is
    the heading of the key followed by one line per value, in the order of
    the values.  So every key and every value of the record set is printed,
    and an empty record set gives the first heading alone. *)
Theorem printRecords_output (domain : string) (rs : RecordSet) (w : World) :
  exists (w' : World) (entries : list (string * list string)),
    run P (printRecords domain rs) w = Returned tt w' /\
    only_stdout w w' /\
    entries ≡ₚ map_to_list rs /\
    stdout w'
    = (stdout w ++
       (nl +:+ "DNS Records for " +:+ domain +:+ ":" +:+ nl) :: record_lines entries)%list /\
    (forall (k : string) (vs : list string),
       rs !! k = Some vs ->
       (k +:+ " Records:" +:+ nl) ∈ record_lines entries /\
       forall v : string, v ∈ vs -> bullet v ∈ record_lines entries) /\
    (rs = ∅ -> record_lines entries = []).
Proof.
  unfold printRecords. rewrite run_bind. unfold fmt.Printf at 1.
  erewrite run_perform by reflexivity. cbn [and_then].
  rewrite run_bind. erewrite run_perform by reflexivity. cbn [and_then].
  match goal with
  | |- context [run P (forEach ?entries ?body) ?w0] =>
      destruct (forEach_sections entries w0) as (w' & Hrun & Hout & Hsame);
      pose proof (map_range_entries P w0 rs) as Hperm;
      exists w', entries
  end.
  split; [exact Hrun |]. split; [| split; [exact Hperm | split; [| split]]].
  - unfold only_stdout in *. cbn in Hsame. exact Hsame.
  - rewrite Hout. cbn. rewrite <- app_assoc. reflexivity.
  - intros k vs Hk. unfold record_lines.
    match goal with
    | |- context [?entries ≫= section_lines] =>
        assert (Hin : (k, vs) ∈ entries)
          by (rewrite Hperm; by apply elem_of_map_to_list)
    end.
    split.
    + apply list_elem_of_bind. exists (k, vs). split; [apply list_elem_of_here | exact Hin].
    + intros v Hv. apply list_elem_of_bind. exists (k, vs). split; [| exact Hin].
      apply list_elem_of_further, list_elem_of_In, in_map, list_elem_of_In, Hv.
  - intros ->. rewrite map_to_list_empty in Hperm.
    apply Permutation_nil_r in Hperm. rewrite Hperm. reflexivity.
Qed.

End Printing.

(** ** main: the logger and the choice of the operation *)

Section MainDispatch.
Variable P : Platform.

Lemma initLogger_run (w : World) :
  run P initLogger w
  = match os_OpenFile P "dns_resolver.log" with
    | Some err => Exited 1 (add_logged ("Error opening log file: " +:+ err) w)
    | None => Returned tt (set_logOutput "dns_resolver.log" w)
    end.
Proof.
  unfold initLogger. rewrite run_bind. erewrite run_perform by reflexivity.
  cbn [and_then]. destruct (os_OpenFile P "dns_resolver.log"); reflexivity.
Qed.

(** X11. When the log file cannot be opened, main ends the process with
    exit status 1 whatever its arguments are: the error is logged, and
    nothing is printed, looked up or stored. *)
Theorem main_log_file_failure (sched : list nat) (Args : list string) (err : error)
    (w : World) :
  os_OpenFile P "dns_resolver.log" = Some err ->
  main P sched Args w = Exited 1 (add_logged ("Error opening log file: " +:+ err) w).
Proof. intros Hopen. unfold main. rewrite initLogger_run, Hopen. reflexivity. Qed.

(** X12. Called without an argument (and with the log file opened), main
    prints the usage line and returns; it makes no lookup and leaves the
    cache alone. *)
Theorem main_no_argument (sched : list nat) (Args : list string) (w : World) :
  os_OpenFile P "dns_resolver.log" = None ->
  (length Args < 2)%nat ->
  exists w' : World,
    main P sched Args w = Returned tt w' /\
    stdout w' = (stdout w ++ [usage +:+ nl])%list /\
    calls w' = calls w /\
    dnsCache w' = dnsCache w /\
    logOutput w' = Some "dns_resolver.log".
Proof.
  intros Hopen Hlen. unfold main. rewrite initLogger_run, Hopen. cbn [and_then].
  destruct (Nat.ltb_spec (length Args) 2); [| lia].
  eexists. split; [reflexivity |]. repeat split.
Qed.

(** X13. A first argument that holds a dot is resolved as a domain and its
    records are printed, whatever follows it, unless there are exactly four
    arguments and the third is [--server].  In particular [--file] after a
    path with a dot in it does not start the batch mode. *)
Theorem main_dotted_argument (sched : list nat) (Args : list string) (w : World) :
  (2 <= length Args)%nat ->
  strings.Contains (nth 1 Args EmptyString) "." = true ->
  ~ (length Args = 4%nat /\ nth 2 Args EmptyString = "--server") ->
  main P sched Args w
  = and_then (run P initLogger w)
      (fun _ w1 =>
         run P (records ← resolveDNS P (nth 1 Args EmptyString);
                printRecords (nth 1 Args EmptyString) records) w1).
Proof.
  intros Hlen Hdot Hnot. unfold main. rewrite Hdot.
  destruct (Nat.ltb_spec (length Args) 2); [lia |].
  destruct ((length Args =? 4)%nat && String.eqb (nth 2 Args EmptyString) "--server")
    eqn:Hserver; [| reflexivity].
  apply andb_prop in Hserver as [H4 Hflag].
  apply Nat.eqb_eq in H4. apply String.eqb_eq in Hflag. tauto.
Qed.

(** X14. With exactly four arguments, the first holding a dot and the third
    being [--server], main prints [Coming soon ...] and returns: the domain
    is not resolved and no lookup is made. *)
Theorem main_server_flag (sched : list nat) (Args : list string) (w : World) :
  os_OpenFile P "dns_resolver.log" = None ->
  length Args = 4%nat ->
  strings.Contains (nth 1 Args EmptyString) "." = true ->
  nth 2 Args EmptyString = "--server" ->
  exists w' : World,
    main P sched Args w = Returned tt w' /\
    stdout w' = (stdout w ++ ["Coming soon ..." +:+ nl])%list /\
    calls w' = calls w /\
    dnsCache w' = dnsCache w.
Proof.
  intros Hopen Hlen Hdot Hflag. unfold main.
  rewrite initLogger_run, Hopen, Hdot, Hlen, Hflag. cbn [and_then].
  eexists. split; [reflexivity |]. repeat split.
Qed.

(** X15. For a first argument with neither a dot nor a colon, main starts
    the batch mode on it when there are exactly three arguments and the
    third is [--file]; in every other case it prints [Invalid input.] and
    does nothing else. *)
Theorem main_plain_argument (sched : list nat) (Args : list string) (w : World) :
  (2 <= length Args)%nat ->
  strings.Contains (nth 1 Args EmptyString) "." = false ->
  strings.Contains (nth 1 Args EmptyString) ":" = false ->
  (length Args = 3%nat -> nth 2 Args EmptyString = "--file" ->
   main P sched Args w
   = and_then (run P initLogger w)
       (fun _ w1 => resolveBatch P sched (nth 1 Args EmptyString) w1)) /\
  (~ (length Args = 3%nat /\ nth 2 Args EmptyString = "--file") ->
   main P sched Args w
   = and_then (run P initLogger w)
       (fun _ w1 => Returned tt (add_stdout ("Invalid input." +:+ nl) w1))).
Proof.
  intros Hlen Hdot Hcolon. unfold main. rewrite Hdot, Hcolon.
  destruct (Nat.ltb_spec (length Args) 2); [lia |].
  split.
  - intros -> ->. reflexivity.
  - intros Hnot.
    destruct ((length Args =? 3)%nat && String.eqb (nth 2 Args EmptyString) "--file")
      eqn:Hfile; [| reflexivity].
    apply andb_prop in Hfile as [H3 Hflag].
    apply Nat.eqb_eq in H3. apply String.eqb_eq in Hflag. tauto.
Qed.

End MainDispatch.

(** ** The batch mode: the join *)

Section Batch.
Variable P : Platform.

Lemma quiet_bind {A B : Type} (m : Prog A) (f : A -> Prog B) :
  quiet_prog m -> (forall a, quiet_prog (f a)) -> quiet_prog (m ≫= f).
Proof.
  intros Hm Hf. induction m as [a | X e k IH]; [apply Hf |].
  destruct Hm as [He Hk]. split; [exact He |]. intros x. apply IH, Hk.
Qed.

Lemma ends_with_done_bind {A : Type} (m : Prog A) (f : A -> Prog unit) :
  quiet_prog m -> (forall a, ends_with_done (f a)) -> ends_with_done (m ≫= f).
Proof.
  intros Hm Hf. induction m as [a | X e k IH]; [apply Hf |].
  destruct Hm as [He Hk]. right. split; [exact He |]. intros x. apply IH, Hk.
Qed.

Lemma quiet_perform {X : Type} (e : Eff X) : quiet e = true -> quiet_prog (perform e).
Proof. intros He. split; [exact He | intros; exact I]. Qed.

Lemma quiet_forEach {A : Type} (l : list A) (body : A -> Prog unit) :
  (forall x, quiet_prog (body x)) -> quiet_prog (forEach l body).
Proof.
  intros Hbody. induction l as [| x l IH]; [exact I |].
  apply quiet_bind; [apply Hbody | intros _; exact IH].
Qed.

Ltac quiet_steps :=
  unfold fmt.Println, fmt.Printf, log.Printf;
  repeat first
    [ exact I
    | apply quiet_perform; reflexivity
    | apply quiet_bind; [| intros ?]
    | match goal with |- quiet_prog (match ?x with _ => _ end) => destruct x end ].

Lemma quiet_normalizeDomain (domain : string) : quiet_prog (normalizeDomain P domain).
Proof. unfold normalizeDomain. quiet_steps. Qed.

Lemma quiet_getCachedResult (domain : string) : quiet_prog (getCachedResult domain).
Proof. unfold getCachedResult. quiet_steps. Qed.

Lemma quiet_cacheResult (domain : string) (rs : RecordSet) : quiet_prog (cacheResult domain rs).
Proof. unfold cacheResult. quiet_steps. Qed.

Lemma quiet_resolveDNS (domain : string) : quiet_prog (resolveDNS P domain).
Proof.
  unfold resolveDNS.
  apply quiet_bind; [apply quiet_normalizeDomain | intros nd].
  apply quiet_bind; [apply quiet_getCachedResult | intros [cached found]].
  destruct found; [quiet_steps |].
  repeat (apply quiet_bind; [apply quiet_perform; reflexivity | intros [? ?]];
          apply quiet_bind; [quiet_steps | intros ?]).
  apply quiet_bind; [apply quiet_cacheResult | intros _; exact I].
Qed.

Lemma quiet_printRecords (domain : string) (rs : RecordSet) :
  quiet_prog (printRecords domain rs).
Proof.
  unfold printRecords.
  apply quiet_bind; [quiet_steps | intros _].
  apply quiet_bind; [quiet_steps | intros entries].
  apply quiet_forEach. intros [recordType values].
  apply quiet_bind; [quiet_steps | intros _].
  apply quiet_forEach. intros value. quiet_steps.
Qed.

Lemma worker_ends_with_done (domain : string) : ends_with_done (worker P domain).
Proof.
  unfold worker.
  apply ends_with_done_bind; [quiet_steps | intros _].
  apply ends_with_done_bind; [apply quiet_resolveDNS | intros records].
  apply ends_with_done_bind; [apply quiet_printRecords | intros _].
  left. split; [reflexivity | intros; reflexivity].
Qed.

(** A quiet primitive completes or waits; it does not end the process and
    does not change the WaitGroup counter. *)
Lemma handle_quiet {X : Type} (e : Eff X) (w : World) :
  quiet e = true ->
  match handle P e w with
  | Done _ w' => wg w' = wg w
  | Halt _ _ => False
  | Wait => True
  end.
Proof.
  intros He. destruct e; try discriminate He; try reflexivity.
  cbn. destruct (cacheMutex w); [exact I | reflexivity].
Qed.

Lemma unfinished_cons (t : Prog unit) (pool : list (Prog unit)) :
  unfinished (t :: pool) = ((if finished t then 0 else 1) + unfinished pool)%nat.
Proof. unfold unfinished. cbn [List.filter]. destruct (finished t); reflexivity. Qed.

Lemma unfinished_insert (pool : list (Prog unit)) (i : nat) (t t' : Prog unit) :
  pool !! i = Some t ->
  (unfinished (<[i := t']> pool) + (if finished t then 0 else 1)
   = unfinished pool + (if finished t' then 0 else 1))%nat.
Proof.
  revert i. induction pool as [| t0 pool IH]; intros i Hi; [discriminate |].
  destruct i as [| i]; cbn in Hi.
  - injection Hi as ->. change (<[0%nat := t']> (t :: pool)) with (t' :: pool).
    rewrite !unfinished_cons. destruct (finished t), (finished t'); lia.
  - change (<[S i := t']> (t0 :: pool)) with (t0 :: <[i := t']> pool).
    rewrite !unfinished_cons. specialize (IH i Hi).
    destruct (finished t), (finished t'), (finished t0); lia.
Qed.

Lemma pool_ok_insert (pool : list (Prog unit)) (i : nat) (t' : Prog unit) :
  pool_ok pool -> finished t' = true \/ ends_with_done t' -> pool_ok (<[i := t']> pool).
Proof.
  unfold pool_ok. intros Hpool Ht'. revert i.
  induction Hpool as [| t pool Ht Hpool IH]; intros i; [constructor |].
  destruct i; cbn; constructor; auto.
Qed.

Lemma pool_ok_lookup (pool : list (Prog unit)) (i : nat) (t : Prog unit) :
  pool_ok pool -> pool !! i = Some t -> finished t = true \/ ends_with_done t.
Proof.
  unfold pool_ok. rewrite Forall_forall. intros Hpool Hi.
  apply Hpool. eapply list_elem_of_lookup_2, Hi.
Qed.

(** Under every schedule, a pool of such goroutines whose WaitGroup counter
    is the number of unfinished ones keeps that, and the process does not
    end. *)
Lemma interleave_counts (sched : list nat) (pool : list (Prog unit)) (w : World) :
  pool_ok pool ->
  wg w = Z.of_nat (unfinished pool) ->
  exists (pool' : list (Prog unit)) (w' : World),
    interleave P sched pool w = Returned pool' w' /\
    pool_ok pool' /\
    wg w' = Z.of_nat (unfinished pool').
Proof.
  revert pool w. induction sched as [| i sched IH]; intros pool w Hok Hwg.
  { exists pool, w. repeat split; assumption. }
  cbn [interleave]. destruct (pool !! i) as [t |] eqn:Hi; [| by apply IH].
  destruct t as [[] | X e k].
  { cbn [step_thread]. rewrite list_insert_id by assumption. by apply IH. }
  pose proof (unfinished_insert pool i (Vis e k)) as Hcount.
  destruct (pool_ok_lookup pool i _ Hok Hi) as [Hfin | [[Hdone Hk] | [Hquiet Hk]]];
    [discriminate Hfin | |].
  - (* the deferred wg.Done() *)
    destruct e; try discriminate Hdone.
    specialize (Hcount (k tt) Hi). rewrite (Hk tt) in Hcount. cbn [finished] in Hcount.
    cbn [step_thread handle].
    destruct (Z.leb_spec (wg w) 0); [lia |].
    apply IH; [apply pool_ok_insert; [assumption | left; apply Hk] |].
    cbn [wg set_wg]. lia.
  - (* a quiet primitive *)
    pose proof (handle_quiet e w Hquiet) as Hq.
    cbn [step_thread]. destruct (handle P e w) as [x w' | |]; [| contradiction |].
    + specialize (Hcount (k x) Hi).
      assert (Hnot : finished (k x) = false).
      { specialize (Hk x). destruct (k x); [contradiction | reflexivity]. }
      rewrite Hnot in Hcount. cbn [finished] in Hcount.
      apply IH; [apply pool_ok_insert; [assumption | right; apply Hk] |].
      rewrite Hq, Hwg. f_equal. lia.
    + rewrite list_insert_id by assumption. by apply IH.
Qed.

Lemma set_wg_same (w : World) : set_wg (wg w) w = w.
Proof. by destruct w. Qed.

Lemma launch_counts (file : list string) (w : World) :
  run P (forEach file (fun _ => perform (EWgAdd 1))) w
  = Returned tt (set_wg (wg w + Z.of_nat (length file)) w).
Proof.
  revert w. induction file as [| line file IH]; intros w.
  - cbn. by rewrite Z.add_0_r, set_wg_same.
  - cbn [forEach]. rewrite run_bind. erewrite run_perform by reflexivity.
    cbn [and_then]. rewrite IH. f_equal.
    apply World_eq; cbn; try reflexivity. lia.
Qed.

Lemma workers_ok (file : list string) : pool_ok (map (worker P) file).
Proof.
  induction file as [| line file IH]; constructor; [| exact IH].
  right. apply worker_ends_with_done.
Qed.

Lemma unfinished_workers (file : list string) :
  unfinished (map (worker P) file) = length file.
Proof.
  induction file as [| line file IH]; [reflexivity |].
  cbn [map]. rewrite unfinished_cons, IH.
  pose proof (worker_ends_with_done line) as Hw.
  destruct (worker P line); [contradiction | reflexivity].
Qed.

(** X16. When the batch file opens (and no WaitGroup count is pending),
    resolveBatch never ends the process, under any schedule; it returns to
    its caller exactly when every worker it launched has run to its end,
    and is still waiting otherwise.  The WaitGroup counter is at every
    moment the number of workers that have not finished. *)
Theorem resolveBatch_join (sched : list nat) (filePath : string) (file : list string)
    (w : World) :
  os_Open P filePath = (file, None) ->
  wg w = 0 ->
  exists (pool : list (Prog unit)) (w' : World),
    interleave P sched (map (worker P) file) (set_wg (Z.of_nat (length file)) w)
    = Returned pool w' /\
    wg w' = Z.of_nat (unfinished pool) /\
    resolveBatch P sched filePath w
    = if (unfinished pool =? 0)%nat then Returned tt w' else Blocked w'.
Proof.
  intros Hopen Hwg.
  destruct (interleave_counts sched (map (worker P) file)
              (set_wg (Z.of_nat (length file)) w) (workers_ok file))
    as (pool & w' & Hrun & _ & Hcount).
  { cbn [wg set_wg]. by rewrite unfinished_workers. }
  exists pool, w'. split; [exact Hrun |]. split; [exact Hcount |].
  unfold resolveBatch, resolveBatch_launch.
  rewrite run_bind. erewrite run_perform by reflexivity. cbn [and_then].
  rewrite Hopen. rewrite run_bind, launch_counts. cbn [and_then run mret Prog_ret].
  rewrite Hwg, Z.add_0_l, Hrun. cbn [and_then]. rewrite Hcount.
  destruct (unfinished pool); reflexivity.
Qed.

(** X17. For a batch file without a line resolveBatch returns at once,
    under every schedule, and the world is as it was. *)
Theorem resolveBatch_empty_file (sched : list nat) (filePath : string) (w : World) :
  os_Open P filePath = ([], None) ->
  wg w = 0 ->
  resolveBatch P sched filePath w = Returned tt w.
Proof.
  intros Hopen Hwg.
  unfold resolveBatch, resolveBatch_launch.
  rewrite run_bind. erewrite run_perform by reflexivity. cbn [and_then].
  rewrite Hopen. cbn [forEach map]. cbn [mbind Prog_bind bind mret Prog_ret run and_then].
  assert (Hpool : forall s, interleave P s [] w = Returned [] w).
  { intros s. induction s as [| i s IH]; [reflexivity | exact IH]. }
  rewrite Hpool. cbn [and_then]. rewrite Hwg. reflexivity.
Qed.

(** *** A schedule under which the batch completes *)

Lemma resolveDNS_returns_unlocked (domain : string) (w : World) :
  cacheMutex w = false ->
  exists (rs : RecordSet) (w' : World),
    run P (resolveDNS P domain) w = Returned rs w' /\
    cacheMutex w' = false /\ wg w' = wg w.
Proof.
  intros Hfree.
  destruct (normalizeDomain_run P domain) as (nd & Hout).
  destruct (Hout w) as (w1 & Hnorm & (_ & Hmutex & _ & _ & Hwg)).
  assert (Hfree1 : cacheMutex w1 = false) by congruence.
  destruct (cache_view nd w1) as [cached [|]] eqn:Hview.
  - eexists _, _. split; [by apply (resolveDNS_hit P domain nd) |].
    cbn. split; assumption.
  - rewrite (resolveDNS_miss_exact P domain nd cached w w1 Hfree1 Hnorm Hview).
    eexists _, _. split; [reflexivity |]. cbn. split; [reflexivity | assumption].
Qed.

Lemma printRecords_returns (domain : string) (rs : RecordSet) (w : World) :
  exists w' : World,
    run P (printRecords domain rs) w = Returned tt w' /\
    cacheMutex w' = cacheMutex w /\ wg w' = wg w.
Proof.
  unfold printRecords. rewrite run_bind. unfold fmt.Printf at 1.
  erewrite run_perform by reflexivity. cbn [and_then].
  rewrite run_bind. erewrite run_perform by reflexivity. cbn [and_then].
  match goal with
  | |- context [run P (forEach ?entries ?body) ?w0] =>
      destruct (forEach_sections P entries w0)
        as (w' & Hrun & _ & (_ & Hmutex & _ & _ & _ & _ & Hwg))
  end.
  exists w'. split; [exact Hrun |]. split; assumption.
Qed.

(** A worker that runs alone, with the mutex free and its WaitGroup count
    taken, runs to its end. *)
Lemma worker_returns (domain : string) (w : World) :
  cacheMutex w = false ->
  0 < wg w ->
  exists w' : World,
    run P (worker P domain) w = Returned tt w' /\
    cacheMutex w' = false /\ wg w' = wg w - 1.
Proof.
  intros Hfree Hwg. unfold worker.
  rewrite run_bind. unfold fmt.Printf at 1. erewrite run_perform by reflexivity.
  cbn [and_then]. rewrite run_bind.
  match goal with
  | |- context [run P (resolveDNS P domain) ?w0] =>
      destruct (resolveDNS_returns_unlocked domain w0 Hfree) as (rs & w1 & -> & Hfree1 & Hwg1)
  end.
  cbn [and_then]. rewrite run_bind.
  destruct (printRecords_returns domain rs w1) as (w2 & -> & Hfree2 & Hwg2).
  cbn [and_then run perform handle].
  cbn in Hwg1.
  destruct (Z.leb_spec (wg w2) 0); [lia |].
  eexists. split; [reflexivity |]. cbn. split; [congruence | lia].
Qed.

(** Giving a goroutine enough turns in a row is running it alone. *)
Lemma interleave_alone (t : Prog unit) (w w' : World) :
  run P t w = Returned tt w' ->
  forall (pool : list (Prog unit)) (i : nat),
    pool !! i = Some t ->
    exists n : nat,
      forall rest : list nat,
        interleave P (repeat i n ++ rest)%list pool w
        = interleave P rest (<[i := Ret tt]> pool) w'.
Proof.
  revert w. induction t as [[] | X e k IH]; intros w Hrun pool i Hi.
  - injection Hrun as <-. exists 0%nat. intros rest.
    rewrite list_insert_id by assumption. reflexivity.
  - cbn [run] in Hrun. destruct (handle P e w) as [x w1 | |] eqn:He; [| discriminate ..].
    destruct (IH x w1 Hrun (<[i := k x]> pool) i) as (n & Hn).
    { apply list_lookup_insert_eq. eapply lookup_lt_Some, Hi. }
    exists (S n). intros rest. cbn [repeat app interleave].
    rewrite Hi. cbn [step_thread]. rewrite He, Hn, list_insert_insert_eq. reflexivity.
Qed.

Lemma interleave_in_turn (domains : list string) :
  forall (before : list (Prog unit)) (w : World),
    cacheMutex w = false ->
    wg w = Z.of_nat (length domains) ->
    exists (sched : list nat) (pool : list (Prog unit)) (w' : World),
      interleave P sched (before ++ map (worker P) domains)%list w = Returned pool w' /\
      cacheMutex w' = false /\ wg w' = 0.
Proof.
  induction domains as [| domain domains IH]; intros before w Hfree Hwg.
  - exists [], (before ++ [])%list, w. repeat split; assumption.
  - destruct (worker_returns domain w Hfree) as (w1 & Hrun & Hfree1 & Hwg1).
    { rewrite Hwg. cbn [length]. lia. }
    destruct (interleave_alone _ _ _ Hrun (before ++ map (worker P) (domain :: domains))%list
                (length before)) as (n & Hn).
    { cbn [map]. by rewrite list_lookup_middle. }
    destruct (IH (before ++ [Ret tt])%list w1 Hfree1) as (sched & pool & w' & Hrest & Hfree' & Hwg').
    { rewrite Hwg1, Hwg. cbn [length]. lia. }
    exists (repeat (length before) n ++ sched)%list, pool, w'.
    split; [| split; assumption].
    rewrite Hn. cbn [map].
    rewrite insert_app_r_alt, Nat.sub_diag by reflexivity.
    rewrite <- Hrest. f_equal. rewrite <- app_assoc. reflexivity.
Qed.

(** X18. When the batch file opens, the mutex is free and no WaitGroup
    count is pending, there is a schedule under which resolveBatch returns
    to its caller, with the mutex free again and the WaitGroup counter back
    at zero: the workers running one after the other. *)
Theorem resolveBatch_can_complete (filePath : string) (file : list string) (w : World) :
  os_Open P filePath = (file, None) ->
  cacheMutex w = false ->
  wg w = 0 ->
  exists (sched : list nat) (w' : World),
    resolveBatch P sched filePath w = Returned tt w' /\
    cacheMutex w' = false /\ wg w' = 0.
Proof.
  intros Hopen Hfree Hwg.
  destruct (interleave_in_turn file [] (set_wg (Z.of_nat (length file)) w))
    as (sched & pool & w' & Hrun & Hfree' & Hwg'); [assumption | reflexivity |].
  exists sched, w'. split; [| split; assumption].
  unfold resolveBatch, resolveBatch_launch.
  rewrite run_bind. erewrite run_perform by reflexivity. cbn [and_then].
  rewrite Hopen. rewrite run_bind, launch_counts. cbn [and_then run mret Prog_ret].
  rewrite Hwg, Z.add_0_l. cbn [app] in Hrun. rewrite Hrun. cbn [and_then].
  rewrite Hwg'. reflexivity.
Qed.

End Batch.

(** ** The first version of the program *)

Section FirstVersion.
Variable P : Platform.

Lemma stdout_print_lines (lines : list string) (w : World) :
  stdout (print_lines lines w) = (stdout w ++ lines)%list.
Proof.
  revert w. induction lines as [| line lines IH]; intros w; cbn [print_lines fold_left].
  - by rewrite app_nil_r.
  - fold (print_lines lines (add_stdout line w)). rewrite IH. cbn. by rewrite <- app_assoc.
Qed.

Lemma only_stdout_print_lines (lines : list string) (w : World) :
  only_stdout w (print_lines lines w).
Proof.
  revert w. induction lines as [| line lines IH]; intros w; cbn [print_lines fold_left].
  - repeat split.
  - fold (print_lines lines (add_stdout line w)).
    destruct (IH (add_stdout line w)) as (? & ? & ? & ? & ? & ? & ?).
    repeat split; assumption.
Qed.

Lemma calls_print_lines lines w : calls (print_lines lines w) = calls w.
Proof. apply only_stdout_print_lines. Qed.
Lemma clock_print_lines lines w : clock (print_lines lines w) = clock w.
Proof. apply only_stdout_print_lines. Qed.
Lemma dnsCache_print_lines lines w : dnsCache (print_lines lines w) = dnsCache w.
Proof. apply only_stdout_print_lines. Qed.
Lemma logged_print_lines lines w : logged (print_lines lines w) = logged w.
Proof. apply only_stdout_print_lines. Qed.

Create Rewrite HintDb printed.
#[local] Hint Rewrite stdout_print_lines calls_print_lines clock_print_lines
  dnsCache_print_lines logged_print_lines : printed.

Lemma forEach_printf {A : Type} (g : A -> string) (l : list A) (w : World) :
  run P (forEach l (fun x => fmt.Printf (g x))) w = Returned tt (print_lines (map g l) w).
Proof.
  revert w. induction l as [| x l IH]; intros w; [reflexivity |].
  cbn [forEach]. rewrite run_bind. unfold fmt.Printf at 1.
  erewrite run_perform by reflexivity. cbn [and_then]. apply IH.
Qed.

Lemma forEach_selected (keep : IP -> bool) (body : IP -> Prog unit) (ips : list IP)
    (w : World) :
  (forall ip, body ip = if keep ip then fmt.Println (" - " +:+ IP_String P ip) else mret tt) ->
  run P (forEach ips body) w
  = Returned tt (print_lines (map bullet (map (IP_String P) (List.filter keep ips))) w).
Proof.
  intros Hbody. revert w. induction ips as [| ip ips IH]; intros w; [reflexivity |].
  cbn [forEach List.filter]. rewrite run_bind, Hbody.
  destruct (keep ip); cbn [and_then map].
  - unfold fmt.Println. erewrite run_perform by reflexivity. cbn [and_then]. apply IH.
  - apply IH.
Qed.

(** X19. The first version of resolveDNS gives up when the address lookup
    fails: it returns after that single lookup, having printed the heading
    and the error (through [Println], so with the [%s] of the message left
    as it is); the CNAME and MX lookups are not made. *)
Theorem V1_resolveDNS_address_failure (domain : string) (err : error) (w : World) :
  (net_LookupIP P (clock w) domain).1.2 = Some err ->
  exists w' : World,
    run P (V1.resolveDNS P domain) w = Returned tt w' /\
    calls w' = (calls w ++ [ {| call_op := OpLookupIP; call_arg := domain;
                                call_err := Some err |} ])%list /\
    stdout w' = (stdout w ++
                 [ "Resolving DNS for: " +:+ domain +:+ nl +:+ nl;
                   "Error during DNS looking up: %s" +:+ nl +:+ nl +:+ " " +:+ err +:+ nl ])%list /\
    dnsCache w' = dnsCache w /\ logged w' = logged w.
Proof.
  intros Herr. unfold V1.resolveDNS.
  rewrite run_bind. unfold fmt.Printf at 1. erewrite run_perform by reflexivity.
  cbn [and_then]. rewrite run_bind. erewrite run_perform by reflexivity.
  cbn [and_then lookup_step clock add_stdout].
  destruct (net_LookupIP P (clock w) domain) as [[ips [err' |]] d]; [| discriminate].
  cbn in Herr. injection Herr as ->. cbn [fst snd].
  eexists. split; [reflexivity |]. cbn. rewrite <- !app_assoc.
  repeat split.
Qed.

(** X20. When the address lookup succeeds, the first version of resolveDNS
    makes exactly three lookups, for addresses, CNAME and MX in that order
    and all on the domain as given, whether the last two fail or not.  It
    prints the heading, then the IPv4 addresses under [IP List] and the
    others under the AAAA heading, each address once and in the order
    returned; it touches neither the cache nor the log. *)
Theorem V1_resolveDNS_three_lookups (domain : string) (ips : list IP) (w : World) :
  (net_LookupIP P (clock w) domain).1 = (ips, None) ->
  exists (w' : World) (cname mx : Call) (rest : list string),
    run P (V1.resolveDNS P domain) w = Returned tt w' /\
    calls w' = (calls w ++ [ {| call_op := OpLookupIP; call_arg := domain;
                                call_err := None |}; cname; mx ])%list /\
    call_op cname = OpLookupCNAME /\ call_arg cname = domain /\
    call_op mx = OpLookupMX /\ call_arg mx = domain /\
    stdout w' = (stdout w ++
                 ["Resolving DNS for: " +:+ domain +:+ nl +:+ nl; "IP List" +:+ nl] ++
                 map bullet (map (IP_String P) (List.filter is_v4 ips)) ++
                 [nl +:+ "AAAA Records (IPv6):" +:+ nl] ++
                 map bullet (map (IP_String P) (List.filter (fun ip => negb (is_v4 ip)) ips)) ++
                 rest)%list /\
    dnsCache w' = dnsCache w /\ logged w' = logged w.
Proof.
  intros Hip. unfold V1.resolveDNS.
  rewrite run_bind. unfold fmt.Printf at 1. erewrite run_perform by reflexivity.
  cbn [and_then]. rewrite run_bind. erewrite run_perform by reflexivity.
  cbn [and_then lookup_step clock add_stdout].
  destruct (net_LookupIP P (clock w) domain) as [[ips' err] d].
  cbn in Hip. injection Hip as -> ->. cbn [fst snd].
  rewrite run_bind. unfold fmt.Println at 1. erewrite run_perform by reflexivity.
  cbn [and_then].
  rewrite run_bind, (forEach_selected is_v4)
    by (intros ip; unfold is_v4; destruct (net.To4 ip); reflexivity).
  cbn [and_then].
  rewrite run_bind. unfold fmt.Println at 1. erewrite run_perform by reflexivity.
  cbn [and_then].
  rewrite run_bind, (forEach_selected (fun ip => negb (is_v4 ip)))
    by (intros ip; unfold is_v4; destruct (net.To4 ip); reflexivity).
  cbn [and_then].
  (* CNAME *)
  rewrite run_bind. erewrite run_perform by reflexivity.
  cbn [and_then lookup_step].
  match goal with
  | |- context [net_LookupCNAME P ?t domain] =>
      destruct (net_LookupCNAME P t domain) as [[cname [e2 |]] d2]
  end;
  cbn [fst snd]; rewrite run_bind; unfold fmt.Printf at 1;
  erewrite run_perform by reflexivity; cbn [and_then];
  (* MX *)
  rewrite run_bind; erewrite run_perform by reflexivity; cbn [and_then lookup_step];
  match goal with
  | |- context [net_LookupMX P ?t domain] =>
      destruct (net_LookupMX P t domain) as [[mxs [e3 |]] d3]
  end;
  cbn [fst snd];
  [ unfold fmt.Printf; erewrite run_perform by reflexivity
  | rewrite run_bind; unfold fmt.Println at 1; erewrite run_perform by reflexivity;
    cbn [and_then]; rewrite forEach_printf
  | unfold fmt.Printf; erewrite run_perform by reflexivity
  | rewrite run_bind; unfold fmt.Println at 1; erewrite run_perform by reflexivity;
    cbn [and_then]; rewrite forEach_printf ];
  eexists _, _, _, _; (split; [reflexivity |]);
  repeat (autorewrite with printed;
          cbn [calls stdout dnsCache logged add_call add_stdout]);
  rewrite <- !app_assoc; cbn [app call_op call_arg]; repeat split.
Qed.

(** X21. The first version of main, called without an argument, prints its
    greeting and the usage line and ends the process with exit status 1;
    no lookup is made. *)
Theorem V1_main_no_argument (Args : list string) (w : World) :
  (length Args < 2)%nat ->
  exists w' : World,
    V1.main P Args w = Exited 1 w' /\
    stdout w' = (stdout w ++ [ "Hello World!" +:+ nl +:+ nl +:+ nl;
                               "Usage: go run main.go <domain>" +:+ nl ])%list /\
    calls w' = calls w.
Proof.
  intros Hlen. unfold V1.main.
  destruct (Nat.ltb_spec (length Args) 2); [| lia].
  eexists. split; [reflexivity |]. cbn. rewrite <- app_assoc. repeat split.
Qed.

End FirstVersion.

(** ** Instances on the concrete platforms *)

Lemma demo_start_miss :
  forall e : CacheEntry,
    dnsCache demo.start !! "example.com" = Some e -> expiry e < clock demo.start.
Proof. intros e He. vm_compute in He. discriminate He. Defined.

Lemma resolveDNS_address_records_witness :
  cacheMutex demo.start = false /\
  run demo.platform (normalizeDomain demo.platform "example.com") demo.start
  = Returned "example.com" demo.start /\
  (forall e : CacheEntry,
     dnsCache demo.start !! "example.com" = Some e -> expiry e < clock demo.start) /\
  (net_LookupIP demo.platform (clock demo.start) "example.com").1 = (demo2.addresses, None) /\
  exists (rs : RecordSet) (w' : World),
    run demo.platform (resolveDNS demo.platform "example.com") demo.start = Returned rs w' /\
    rs !! "A" = Some ["93.184.216.34"].
Proof.
  split; [reflexivity |]. split; [reflexivity |]. split; [exact demo_start_miss |].
  split; [reflexivity |].
  destruct (resolveDNS_address_records demo.platform "example.com" "example.com"
              demo.start demo.start demo2.addresses eq_refl eq_refl demo_start_miss eq_refl)
    as (rs & w' & Hrun & HA & _).
  exists rs, w'. split; [exact Hrun | exact HA].
Defined.

Lemma resolveDNS_cname_txt_records_witness :
  cacheMutex demo.start = false /\
  run demo.platform (normalizeDomain demo.platform "example.com") demo.start
  = Returned "example.com" demo.start /\
  (forall e : CacheEntry,
     dnsCache demo.start !! "example.com" = Some e -> expiry e < clock demo.start) /\
  exists (rs : RecordSet) (w' : World),
    run demo.platform (resolveDNS demo.platform "example.com") demo.start = Returned rs w' /\
    rs !! "CNAME" = Some ["example.com."].
Proof.
  split; [reflexivity |]. split; [reflexivity |]. split; [exact demo_start_miss |].
  destruct (resolveDNS_cname_txt_records demo.platform "example.com" "example.com"
              demo.start demo.start eq_refl eq_refl demo_start_miss)
    as (rs & w' & Hrun & Hcname & _).
  exists rs, w'. split; [exact Hrun | exact (Hcname "example.com." eq_refl)].
Defined.

Lemma resolveDNS_mx_ns_records_witness :
  cacheMutex demo.start = false /\
  run demo.platform (normalizeDomain demo.platform "example.com") demo.start
  = Returned "example.com" demo.start /\
  (forall e : CacheEntry,
     dnsCache demo.start !! "example.com" = Some e -> expiry e < clock demo.start) /\
  exists (rs : RecordSet) (w' : World),
    run demo.platform (resolveDNS demo.platform "example.com") demo.start = Returned rs w' /\
    rs !! "NS" = Some ["a.iana-servers.net."; "b.iana-servers.net."].
Proof.
  split; [reflexivity |]. split; [reflexivity |]. split; [exact demo_start_miss |].
  destruct (resolveDNS_mx_ns_records demo.platform "example.com" "example.com"
              demo.start demo.start eq_refl eq_refl demo_start_miss)
    as (rs & w' & Hrun & _ & Hns).
  exists rs, w'. split; [exact Hrun | exact (Hns _ eq_refl)].
Defined.

Lemma resolveDNS_failure_log_witness :
  cacheMutex demo.start = false /\
  run demo.platform (normalizeDomain demo.platform "example.com") demo.start
  = Returned "example.com" demo.start /\
  (forall e : CacheEntry,
     dnsCache demo.start !! "example.com" = Some e -> expiry e < clock demo.start) /\
  exists (rs : RecordSet) (w' : World),
    run demo.platform (resolveDNS demo.platform "example.com") demo.start = Returned rs w' /\
    logged w' = ["Error looking up MX: no such host" +:+ nl].
Proof.
  split; [reflexivity |]. split; [reflexivity |]. split; [exact demo_start_miss |].
  destruct (resolveDNS_failure_log demo.platform "example.com" "example.com"
              demo.start demo.start eq_refl eq_refl demo_start_miss)
    as (rs & w' & Hrun & Hlog & _).
  exists rs, w'. split; [exact Hrun | exact Hlog].
Defined.

Lemma cacheResult_then_getCachedResult_witness :
  cacheMutex demo.start = false /\
  run demo.platform (cacheResult "example.com" demo.entry_A) demo.start
  = Returned tt demo2.stored /\
  no_put_since demo.platform "example.com" demo2.stored
    (advance_clock (3 * time.Minute) demo2.stored) /\
  cacheMutex (advance_clock (3 * time.Minute) demo2.stored) = false /\
  run demo.platform (getCachedResult "example.com")
    (advance_clock (3 * time.Minute) demo2.stored)
  = Returned (demo.entry_A, true) (advance_clock (3 * time.Minute) demo2.stored).
Proof.
  assert (Hsince : no_put_since demo.platform "example.com" demo2.stored
                     (advance_clock (3 * time.Minute) demo2.stored))
    by (apply (nps_wait _ _ (3 * time.Minute)), nps_here).
  split; [reflexivity |]. split; [reflexivity |]. split; [exact Hsince |].
  split; [reflexivity |].
  exact (cacheResult_then_getCachedResult demo.platform "example.com" demo.entry_A
           demo.start demo2.stored (advance_clock (3 * time.Minute) demo2.stored)
           eq_refl eq_refl Hsince eq_refl).
Defined.

Lemma resolveDNS_keeps_other_entries_witness :
  cacheMutex demo2.stored = false /\
  run demo.platform (normalizeDomain demo.platform "example.org") demo2.stored
  = Returned "example.org" demo2.stored /\
  exists (rs : RecordSet) (w' : World),
    run demo.platform (resolveDNS demo.platform "example.org") demo2.stored
    = Returned rs w' /\
    dnsCache w' !! "example.com" = dnsCache demo2.stored !! "example.com".
Proof.
  split; [reflexivity |]. split; [reflexivity |].
  destruct (resolveDNS_keeps_other_entries demo.platform "example.org" "example.org"
              demo2.stored demo2.stored eq_refl eq_refl)
    as (rs & w' & Hrun & _ & Hother & _).
  exists rs, w'. split; [exact Hrun |]. apply Hother. discriminate.
Defined.

Lemma resolveDNS_twice_witness :
  cacheMutex demo.start = false /\
  run demo.platform (normalizeDomain demo.platform "example.com") demo.start
  = Returned "example.com" demo.start /\
  exists (rs : RecordSet) (w1 w3 : World),
    run demo.platform (resolveDNS demo.platform "example.com") demo.start = Returned rs w1 /\
    run demo.platform (resolveDNS demo.platform "example.com")
      (advance_clock (3 * time.Minute) w1) = Returned rs w3 /\
    calls w3 = calls w1.
Proof.
  split; [reflexivity |]. split; [reflexivity |].
  destruct (resolveDNS_twice demo.platform "example.com" "example.com"
              demo.start demo.start eq_refl eq_refl)
    as (rs & w1 & e & Hrun & Hfree1 & _ & _ & Hexpiry & Hsecond).
  specialize (Hexpiry demo_start_miss).
  destruct (Hsecond (advance_clock (3 * time.Minute) w1)
              (nps_wait _ _ (3 * time.Minute) _ _ (nps_here _ _ _)) Hfree1)
    as (Hfresh & _).
  destruct Hfresh as (w3 & Hrun3 & Hcalls3).
  { rewrite Hexpiry. unfold time.Add, advance_clock. cbn [clock].
    unfold time.Add, time.Minute, time.Second, time.Millisecond, time.Microsecond,
      time.Nanosecond. lia. }
  exists rs, w1, w3. split; [exact Hrun |]. split; [exact Hrun3 | exact Hcalls3].
Defined.

Lemma resolveDNS_lookups_unlocked_witness :
  cacheMutex demo.start = false /\
  lookups_unlocked demo.platform (resolveDNS demo.platform "example.com") demo.start.
Proof.
  split; [reflexivity |].
  exact (resolveDNS_lookups_unlocked demo.platform "example.com" demo.start eq_refl).
Defined.

(** The property is not an empty one: a program that looks a name up
    between lock and unlock does not have it. *)
Example lookup_under_lock_is_seen :
  ~ lookups_unlocked demo.platform
      (perform ELock;; perform (ELookupIP "example.com");; perform EUnlock) demo.start.
Proof. cbn. intros (_ & Hlocked & _). discriminate (Hlocked eq_refl). Qed.

Lemma main_log_file_failure_witness :
  os_OpenFile demo2.read_only "dns_resolver.log"
  = Some "open dns_resolver.log: permission denied" /\
  main demo2.read_only [] ["dns"; "example.com"] demo.start
  = Exited 1 (add_logged ("Error opening log file: "
                          +:+ "open dns_resolver.log: permission denied") demo.start).
Proof.
  split; [reflexivity |].
  exact (main_log_file_failure demo2.read_only [] ["dns"; "example.com"]
           "open dns_resolver.log: permission denied" demo.start eq_refl).
Defined.

Lemma main_no_argument_witness :
  os_OpenFile demo.platform "dns_resolver.log" = None /\
  (length ["dns"] < 2)%nat /\
  exists w' : World,
    main demo.platform [] ["dns"] demo.start = Returned tt w' /\
    stdout w' = [usage +:+ nl].
Proof.
  split; [reflexivity |]. split; [simpl; lia |].
  destruct (main_no_argument demo.platform [] ["dns"] demo.start eq_refl
              ltac:(simpl; lia))
    as (w' & Hrun & Hout & _).
  exists w'. split; [exact Hrun | exact Hout].
Defined.

Lemma main_dotted_argument_witness :
  (2 <= length ["dns"; "domains.txt"; "--file"])%nat /\
  strings.Contains "domains.txt" "." = true /\
  ~ (length ["dns"; "domains.txt"; "--file"] = 4%nat /\ "--file" = "--server") /\
  main demo.platform [] ["dns"; "domains.txt"; "--file"] demo.start
  = and_then (run demo.platform initLogger demo.start)
      (fun _ w1 =>
         run demo.platform (records ← resolveDNS demo.platform "domains.txt";
                            printRecords "domains.txt" records) w1).
Proof.
  assert (Hnot : ~ (length ["dns"; "domains.txt"; "--file"] = 4%nat /\ "--file" = "--server"))
    by (intros [Hlen _]; discriminate Hlen).
  split; [simpl; lia |]. split; [reflexivity |]. split; [exact Hnot |].
  exact (main_dotted_argument demo.platform [] ["dns"; "domains.txt"; "--file"] demo.start
           ltac:(simpl; lia) eq_refl Hnot).
Defined.

Lemma main_server_flag_witness :
  os_OpenFile demo.platform "dns_resolver.log" = None /\
  length ["dns"; "example.com"; "--server"; "8.8.8.8"] = 4%nat /\
  strings.Contains "example.com" "." = true /\
  exists w' : World,
    main demo.platform [] ["dns"; "example.com"; "--server"; "8.8.8.8"] demo.start
    = Returned tt w' /\
    calls w' = [].
Proof.
  split; [reflexivity |]. split; [reflexivity |]. split; [reflexivity |].
  destruct (main_server_flag demo.platform [] ["dns"; "example.com"; "--server"; "8.8.8.8"]
              demo.start eq_refl eq_refl eq_refl eq_refl)
    as (w' & Hrun & _ & Hcalls & _).
  exists w'. split; [exact Hrun | exact Hcalls].
Defined.

Lemma main_plain_argument_witness :
  (2 <= length ["dns"; "domains"; "--file"])%nat /\
  strings.Contains "domains" "." = false /\
  strings.Contains "domains" ":" = false /\
  main demo.platform [0; 1]%nat ["dns"; "domains"; "--file"] demo.start
  = and_then (run demo.platform initLogger demo.start)
      (fun _ w1 => resolveBatch demo.platform [0; 1]%nat "domains" w1).
Proof.
  split; [simpl; lia |]. split; [reflexivity |]. split; [reflexivity |].
  exact (proj1 (main_plain_argument demo.platform [0; 1]%nat ["dns"; "domains"; "--file"]
                  demo.start ltac:(simpl; lia) eq_refl eq_refl) eq_refl eq_refl).
Defined.

Lemma resolveBatch_join_witness :
  os_Open demo.platform "domains.txt" = (["example.com"; "example.org"], None) /\
  wg demo.start = 0 /\
  exists (pool : list (Prog unit)) (w' : World),
    resolveBatch demo.platform (demo.taking_turns 5) "domains.txt" demo.start
    = if (unfinished pool =? 0)%nat then Returned tt w' else Blocked w'.
Proof.
  split; [reflexivity |]. split; [reflexivity |].
  destruct (resolveBatch_join demo.platform (demo.taking_turns 5) "domains.txt"
              ["example.com"; "example.org"] demo.start eq_refl eq_refl)
    as (pool & w' & _ & _ & Hrun).
  exists pool, w'. exact Hrun.
Defined.

Lemma resolveBatch_empty_file_witness :
  os_Open demo2.read_only "domains.txt" = ([], None) /\
  wg demo.start = 0 /\
  resolveBatch demo2.read_only [0; 1; 2]%nat "domains.txt" demo.start
  = Returned tt demo.start.
Proof.
  split; [reflexivity |]. split; [reflexivity |].
  exact (resolveBatch_empty_file demo2.read_only [0; 1; 2]%nat "domains.txt" demo.start
           eq_refl eq_refl).
Defined.

Lemma resolveBatch_can_complete_witness :
  os_Open demo.platform "domains.txt" = (["example.com"; "example.org"], None) /\
  cacheMutex demo.start = false /\
  wg demo.start = 0 /\
  exists (sched : list nat) (w' : World),
    resolveBatch demo.platform sched "domains.txt" demo.start = Returned tt w'.
Proof.
  split; [reflexivity |]. split; [reflexivity |]. split; [reflexivity |].
  destruct (resolveBatch_can_complete demo.platform "domains.txt"
              ["example.com"; "example.org"] demo.start eq_refl eq_refl eq_refl)
    as (sched & w' & Hrun & _).
  exists sched, w'. exact Hrun.
Defined.

Lemma V1_resolveDNS_address_failure_witness :
  (net_LookupIP demo.platform (clock demo.start) "example.org").1.2 = Some "no such host" /\
  exists w' : World,
    run demo.platform (V1.resolveDNS demo.platform "example.org") demo.start
    = Returned tt w' /\
    map call_op (calls w') = [OpLookupIP].
Proof.
  split; [reflexivity |].
  destruct (V1_resolveDNS_address_failure demo.platform "example.org" "no such host"
              demo.start eq_refl)
    as (w' & Hrun & Hcalls & _).
  exists w'. split; [exact Hrun |]. rewrite Hcalls. reflexivity.
Defined.

Lemma V1_resolveDNS_three_lookups_witness :
  (net_LookupIP demo.platform (clock demo.start) "example.com").1 = (demo2.addresses, None) /\
  exists w' : World,
    run demo.platform (V1.resolveDNS demo.platform "example.com") demo.start
    = Returned tt w' /\
    map call_op (calls w') = [OpLookupIP; OpLookupCNAME; OpLookupMX].
Proof.
  split; [reflexivity |].
  destruct (V1_resolveDNS_three_lookups demo.platform "example.com" demo2.addresses
              demo.start eq_refl)
    as (w' & cname & mx & rest & Hrun & Hcalls & Hop2 & _ & Hop3 & _).
  exists w'. split; [exact Hrun |]. rewrite Hcalls. cbn. rewrite Hop2, Hop3. reflexivity.
Defined.

Lemma V1_main_no_argument_witness :
  (length ["main"] < 2)%nat /\
  exists w' : World, V1.main demo.platform ["main"] demo.start = Exited 1 w'.
Proof.
  split; [simpl; lia |].
  destruct (V1_main_no_argument demo.platform ["main"] demo.start ltac:(simpl; lia))
    as (w' & Hrun & _).
  exists w'. exact Hrun.
Defined.

Lemma resolveDNS_keys_from_lookups_witness :
  cacheMutex demo.start = false /\
  run demo.platform (normalizeDomain demo.platform "example.com") demo.start
  = Returned "example.com" demo.start /\
  (forall e : CacheEntry,
     dnsCache demo.start !! "example.com" = Some e -> expiry e < clock demo.start) /\
  exists (rs : RecordSet) (w' : World),
    run demo.platform (resolveDNS demo.platform "example.com") demo.start = Returned rs w' /\
    forall vs : list string, rs !! "NS" = Some vs -> vs <> [].
Proof.
  split; [reflexivity |]. split; [reflexivity |]. split; [exact demo_start_miss |].
  destruct (resolveDNS_keys_from_lookups demo.platform "example.com" "example.com"
              demo.start demo.start eq_refl eq_refl demo_start_miss)
    as (rs & w' & made & Hrun & _ & Hkeys).
  exists rs, w'. split; [exact Hrun |].
  intros vs Hvs. destruct (Hkeys "NS" vs Hvs) as (_ & Hnonempty).
  apply Hnonempty. discriminate.
Defined.

(** An entry about to expire: the first call is still answered from the
    cache, and a call one nanosecond later makes the five lookups. *)
Example resolve_twice_across_expiry :
  match run demo.platform (resolveDNS demo.platform "example.com")
          (demo.cached_until 100 100) with
  | Returned rs w1 =>
      rs = demo.entry_A /\ calls w1 = [] /\
      match run demo.platform (resolveDNS demo.platform "example.com")
              (advance_clock 1 w1) with
      | Returned _ w3 => map call_op (calls w3) = resolve_ops
      | _ => False
      end
  | _ => False
  end.
Proof. vm_compute. repeat split. Qed.

(** The same record set printed on two platforms that walk a map in
    different orders: the sections come out in different orders. *)
Example printRecords_order_differs :
  match run demo.platform (printRecords "d" {["A" := ["1"]; "NS" := ["2"]]}) demo.start,
        run demo2.read_only (printRecords "d" {["A" := ["1"]; "NS" := ["2"]]}) demo.start with
  | Returned _ w1, Returned _ w2 =>
      stdout w1 <> stdout w2 /\ stdout w1 ≡ₚ stdout w2
  | _, _ => False
  end.
Proof.
  vm_compute. split; [discriminate |].
  apply Permutation_skip. exact (Permutation_app_comm [_; _] [_; _]).
Qed.
